(** * OWON AG051 SCPI controller over USB: model of [src/main.py]

    The driver is a single Python class, [OwonAG051], whose methods talk
    to a USB bulk endpoint pair through PyUSB.  The model below keeps the
    class as it is written: every method is a computation in a small
    state-and-exception monad whose state is the chronological list of
    the effects the method has requested (USB discovery, configuration,
    bulk writes, bulk reads, sleeps, prints) and whose environment is an
    arbitrary deterministic device: a list of attached devices and, for
    every request, a reply that may depend on the whole history. *)

From Stdlib Require Import ZArith List String Ascii Bool Lia QArith Qabs FunInd.
From Stdlib Require Import Strings.Byte Floats.SpecFloat DecimalPos.
Import ListNotations.
Local Open Scope Z_scope.

(* ================================================================== *)
(** * Python values used by the driver *)
(* ================================================================== *)

Module Py.

(** A Python [str] is a sequence of Unicode code points (0 .. 0x10FFFF). *)
Definition codepoint := Z.
Definition str := list codepoint.

(** A Python [bytes] object. *)
Definition bytes := list byte.

Definition byte_val (b : byte) : Z := Z.of_N (Byte.to_N b).

(** The C cast [(char) x] of an unsigned value: the low eight bits. *)
Definition byte_of_Z (z : Z) : byte :=
  match Byte.of_N (Z.to_N (z mod 256)) with
  | Some b => b
  | None => x00
  end.

(** A source literal (all literals of the driver are ASCII). *)
Definition lit (s : string) : str :=
  map (fun a => Z.of_N (N_of_ascii a)) (list_ascii_of_string s).

(** The one-character literals ["\r"] and ["\n"]. *)
Definition CR : str := [13].
Definition LF : str := [10].

(** Exceptions.  [USBTimeoutError] is a subclass of [USBError] in PyUSB,
    which is itself an [IOError]; [ValueError] is the builtin. *)
Inductive exn : Type :=
| ValueError (msg : string)
| USBError (strerror : string)
| USBTimeoutError (strerror : string).

(** [isinstance(e, usb.core.USBTimeoutError)], the test made by the
    clause [except usb.core.USBTimeoutError]. *)
Definition is_USBTimeoutError (e : exn) : bool :=
  match e with
  | USBTimeoutError _ => true
  | _ => false
  end.

(** ** [str.strip()] *)

(** [Py_UNICODE_ISSPACE]: the code points [str.isspace] accepts. *)
Definition isspace (c : codepoint) : bool :=
  ((0x09 <=? c) && (c <=? 0x0D)) ||
  ((0x1C <=? c) && (c <=? 0x20)) ||
  (c =? 0x85) || (c =? 0xA0) || (c =? 0x1680) ||
  ((0x2000 <=? c) && (c <=? 0x200A)) ||
  (c =? 0x2028) || (c =? 0x2029) || (c =? 0x202F) ||
  (c =? 0x205F) || (c =? 0x3000).

Fixpoint drop_while {A : Type} (p : A -> bool) (l : list A) : list A :=
  match l with
  | [] => []
  | x :: l' => if p x then drop_while p l' else l
  end.

Definition lstrip (s : str) : str := drop_while isspace s.
Definition rstrip (s : str) : str := rev (drop_while isspace (rev s)).

(** [s.strip()] with no argument: whitespace removed at both ends. *)
Definition strip (s : str) : str := rstrip (lstrip s).

(** ** [str(n)] for an [int] *)

Fixpoint uint_str (u : Decimal.uint) : str :=
  match u with
  | Decimal.Nil => []
  | Decimal.D0 u => 48 :: uint_str u
  | Decimal.D1 u => 49 :: uint_str u
  | Decimal.D2 u => 50 :: uint_str u
  | Decimal.D3 u => 51 :: uint_str u
  | Decimal.D4 u => 52 :: uint_str u
  | Decimal.D5 u => 53 :: uint_str u
  | Decimal.D6 u => 54 :: uint_str u
  | Decimal.D7 u => 55 :: uint_str u
  | Decimal.D8 u => 56 :: uint_str u
  | Decimal.D9 u => 57 :: uint_str u
  end.

(** Decimal digits, with a leading [-] for a negative number. *)
Definition int_str (n : Z) : str :=
  match n with
  | Z0 => [48]
  | Zpos p => uint_str (Pos.to_uint p)
  | Zneg p => 45 :: uint_str (Pos.to_uint p)
  end.

End Py.

(* ================================================================== *)
(** * UTF-8: [bytes.decode("utf-8", errors="ignore")] and [str.encode] *)
(* ================================================================== *)

Module Utf8.
Import Py.

(** [IS_CONTINUATION_BYTE]. *)
Definition is_continuation (ch : Z) : bool := (0x80 <=? ch) && (ch <? 0xC0).

(** The decoder of CPython on the byte values, with the error handler
    [ignore]: at an error the decoder reports the range of offending
    bytes (one byte for an invalid start byte, the bytes read so far for
    an invalid continuation, everything left for a truncated sequence)
    and resumes after it, adding nothing to the output. *)
Fixpoint decode_ignore (s : list Z) : str :=
  match s with
  | [] => []
  | ch :: s1 =>
    if ch <? 0x80 then ch :: decode_ignore s1
    else if ch <? 0xE0 then
      (* \xC2\x80-\xDF\xBF -- 0080-07FF *)
      if ch <? 0xC2 then decode_ignore s1 (* invalid start byte *)
      else
        match s1 with
        | [] => [] (* unexpected end of data *)
        | ch2 :: s2 =>
          if negb (is_continuation ch2) then decode_ignore s1
          else (Z.shiftl ch 6 + ch2 - (Z.shiftl 0xC0 6 + 0x80))
                 :: decode_ignore s2
        end
    else if ch <? 0xF0 then
      (* \xE0\xA0\x80-\xEF\xBF\xBF -- 0800-FFFF, surrogates excluded *)
      match s1 with
      | [] => []
      | ch2 :: s2 =>
        if negb (is_continuation ch2)
           || (if ch2 <? 0xA0 then ch =? 0xE0 else ch =? 0xED)
        then decode_ignore s1
        else
          match s2 with
          | [] => []
          | ch3 :: s3 =>
            if negb (is_continuation ch3) then decode_ignore s2
            else (Z.shiftl ch 12 + Z.shiftl ch2 6 + ch3
                  - (Z.shiftl 0xE0 12 + Z.shiftl 0x80 6 + 0x80))
                   :: decode_ignore s3
          end
      end
    else if ch <? 0xF5 then
      (* \xF0\x90\x80\x80-\xF4\x8F\xBF\xBF -- 10000-10FFFF *)
      match s1 with
      | [] => []
      | ch2 :: s2 =>
        if negb (is_continuation ch2)
           || (if ch2 <? 0x90 then ch =? 0xF0 else ch =? 0xF4)
        then decode_ignore s1
        else
          match s2 with
          | [] => []
          | ch3 :: s3 =>
            if negb (is_continuation ch3) then decode_ignore s2
            else
              match s3 with
              | [] => []
              | ch4 :: s4 =>
                if negb (is_continuation ch4) then decode_ignore s3
                else (Z.shiftl ch 18 + Z.shiftl ch2 12 + Z.shiftl ch3 6 + ch4
                      - (Z.shiftl 0xF0 18 + Z.shiftl 0x80 12
                         + Z.shiftl 0x80 6 + 0x80))
                       :: decode_ignore s4
              end
          end
      end
    else decode_ignore s1 (* invalid start byte *)
  end.

(** Induction along the branches of the decoder. *)
Functional Scheme decode_ignore_ind := Induction for decode_ignore Sort Prop.

(** [data.decode("utf-8", errors="ignore")]. *)
Definition decode (data : bytes) : str := decode_ignore (map byte_val data).

(** The strict encoder on one code point; a surrogate is an error
    ([UnicodeEncodeError]), and so is a value that is no code point. *)
Definition encode_codepoint (ch : Z) : option bytes :=
  if ch <? 0 then None
  else if ch <? 0x80 then Some [byte_of_Z ch]
  else if ch <? 0x0800 then
    Some [byte_of_Z (Z.lor 0xC0 (Z.shiftr ch 6));
          byte_of_Z (Z.lor 0x80 (Z.land ch 0x3F))]
  else if (0xD800 <=? ch) && (ch <=? 0xDFFF) then None
  else if ch <? 0x10000 then
    Some [byte_of_Z (Z.lor 0xE0 (Z.shiftr ch 12));
          byte_of_Z (Z.lor 0x80 (Z.land (Z.shiftr ch 6) 0x3F));
          byte_of_Z (Z.lor 0x80 (Z.land ch 0x3F))]
  else if ch <=? 0x10FFFF then
    Some [byte_of_Z (Z.lor 0xF0 (Z.shiftr ch 18));
          byte_of_Z (Z.lor 0x80 (Z.land (Z.shiftr ch 12) 0x3F));
          byte_of_Z (Z.lor 0x80 (Z.land (Z.shiftr ch 6) 0x3F));
          byte_of_Z (Z.lor 0x80 (Z.land ch 0x3F))]
  else None.

(** [s.encode("utf-8")]: [None] stands for [UnicodeEncodeError]. *)
Fixpoint encode (s : str) : option bytes :=
  match s with
  | [] => Some []
  | ch :: s' =>
    match encode_codepoint ch, encode s' with
    | Some b, Some bs => Some (b ++ bs)
    | _, _ => None
    end
  end.

End Utf8.

(* ================================================================== *)
(** * Python floats: binary64 values, literals *)
(* ================================================================== *)

Module PyFloat.

Definition prec : Z := 53.
Definition emax : Z := 1024.

(** A Python [float] is an IEEE 754 binary64 value. *)
Definition float := spec_float.

Definition of_Z (n : Z) : float := binary_normalize prec emax n 0 false.

(** The decimal literal [m / 10^k], e.g. [0.05] is [decimal 5 2].  For
    [|m| < 2^53] and [k <= 22] both operands are exact, so the correctly
    rounded division returns the double nearest to the literal, which is
    the value Python gives it. *)
Definition decimal (m : Z) (k : Z) : float :=
  SFdiv prec emax (of_Z m) (of_Z (10 ^ k)).

(** The exact rational value of a finite float. *)
Definition to_Q (x : float) : Q :=
  match x with
  | S754_finite s m e =>
      let n := if s then Z.neg m else Z.pos m in
      if 0 <=? e then inject_Z (n * 2 ^ e)
      else Qmake n (Z.to_pos (2 ^ (- e)))
  | _ => 0%Q
  end.

Definition ltb (x y : float) : bool := SFltb x y.

(** ** [repr(x)]: the shortest digit string that reads back as [x] *)

(** [10^k <= b / s], for positive [b] and [s]. *)
Definition pow10_le (k b s : Z) : bool :=
  if 0 <=? k then 10 ^ k * s <=? b else s <=? b * 10 ^ (- k).

Fixpoint count_up (fuel : nat) (k b s : Z) : Z :=
  match fuel with
  | O => k
  | S fuel' => if pow10_le (k + 1) b s then count_up fuel' (k + 1) b s else k
  end.

(** [floor (log10 (b / s))] for positive [b] and [s]: an estimate from
    the bit lengths ([1233 / 4096] is just below [log10 2]), used as the
    starting point if it is not above the answer, then counted up; the
    answer is below the bit length of [b]. *)
Definition floor_log10 (b s : Z) : Z :=
  let est := (Z.log2 b - Z.log2 s - 1) * 1233 / 4096 - 1 in
  let start := if pow10_le est b s then est else - (Z.log2 s + 1) in
  count_up (Z.to_nat (Z.log2 b + 2 - start)) start b s.

(** How the digit loop is left: at [ret], at [roundoff] (the last
    digit, a 9, is to be rounded up), or never in C, here when the bound
    on the number of iterations is used up. *)
Inductive dtoa_exit : Type :=
| Ret (rev_digits : list Z)
| Roundoff (rev_digits : list Z)
| Exhausted (rev_digits : list Z).

Definition is_Lt (c : comparison) : bool :=
  match c with Lt => true | _ => false end.
Definition is_Eq (c : comparison) : bool :=
  match c with Eq => true | _ => false end.
Definition is_Gt (c : comparison) : bool :=
  match c with Gt => true | _ => false end.

(** The digit loop of [_Py_dg_dtoa] in mode 0.  The value left to print
    is [b / s]; [mlo / s] and [mhi / s] are half the distance to the
    float below and above; [even] says that the mantissa is even, in
    which case a decimal lying exactly half way still reads back as the
    float.  Digits are accumulated last digit first. *)
Fixpoint dtoa_digits (fuel : nat) (even : bool) (b s mlo mhi : Z)
  (acc : list Z) : dtoa_exit :=
  match fuel with
  | O => Exhausted acc
  | S fuel' =>
    let dig := b / s in
    let b := b mod s in
    let j := b ?= mlo in
    let j1 := if s - mhi <? 0 then Gt else b ?= s - mhi in
    if is_Eq j1 && even then
      if dig =? 9 then Roundoff (9 :: acc)
      else Ret ((if is_Gt j then dig + 1 else dig) :: acc)
    else if is_Lt j || (is_Eq j && even) then
      if b =? 0 then Ret (dig :: acc)
      else if is_Gt j1 then
        let j1' := 2 * b ?= s in
        if is_Gt j1' || (is_Eq j1' && Z.odd dig) then
          if dig =? 9 then Roundoff (9 :: acc) else Ret (dig + 1 :: acc)
        else Ret (dig :: acc)
      else Ret (dig :: acc)
    else if is_Gt j1 then
      if dig =? 9 then Roundoff (9 :: acc) else Ret (dig + 1 :: acc)
    else dtoa_digits fuel' even (b * 10) s (mlo * 10) (mhi * 10) (dig :: acc)
  end.

(** A number of iterations after which the loop has stopped: [mlo] is
    multiplied by ten at every turn, and the loop stops once it exceeds
    the remainder, which is below [s]. *)
Definition digits_fuel (s mlo : Z) : nat :=
  S (Z.to_nat (Z.log2_up (s / mlo + 1))).

(** [_Py_dg_dtoa(x, 0, ...)] on the positive finite float [m * 2^e] in
    canonical form: the digits, most significant first, and the position
    [decpt] of the decimal point ([0.d1d2... * 10^decpt]).  The three
    numerators share the denominator [s]; the gap below a power of two
    (other than the least normal number) is half the gap above it. *)
Definition dtoa (m : positive) (e : Z) : list Z * Z :=
  let spec_case := (Z.pos m =? 2 ^ 52) && (-1074 <? e) in
  let w := if spec_case then 2 else 1 in
  let u := 2 ^ Z.max e 0 in
  let b0 := Z.pos m * 2 * w * u in
  let s0 := 2 * w * 2 ^ Z.max (- e) 0 in
  let k := floor_log10 b0 s0 in
  let up := 10 ^ Z.max (- k) 0 in
  let s := s0 * 10 ^ Z.max k 0 in
  match dtoa_digits (digits_fuel s (u * up)) (Z.even (Z.pos m))
          (b0 * up) s (u * up) (w * u * up) []
  with
  | Ret acc | Exhausted acc => (rev acc, k + 1)
  | Roundoff acc =>
    match Py.drop_while (Z.eqb 9) acc with
    | [] => ([1], k + 2)
    | d :: acc' => (rev (d + 1 :: acc'), k + 1)
    end
  end.

Definition zeros (n : Z) : Py.str := repeat 48 (Z.to_nat n).

(** [sprintf(p, "%+.02d", exp)]. *)
Definition exp_text (exp : Z) : Py.str :=
  (if exp <? 0 then Py.lit "-" else Py.lit "+")
    ++ (if Z.abs exp <? 10 then Py.lit "0" else [])
    ++ Py.int_str (Z.abs exp).

(** [format_float_short] for the format code ['r'] with the flag
    [Py_DTSF_ADD_DOT_0], on the sign, digits and decimal point position
    that [dtoa] returned. *)
Definition format_float_short (sign : bool) (digits : list Z) (decpt : Z)
  : Py.str :=
  let digits_len := Z.of_nat (List.length digits) in
  let ds := map (fun d => 48 + d) digits in
  (* convert to exponential format at 1e16 *)
  let use_exp := (decpt <=? -4) || (16 <? decpt) in
  let exp := decpt - 1 in
  let decpt := if use_exp then 1 else decpt in
  let vdigits_start := if decpt <=? 0 then decpt - 1 else 0 in
  let vdigits_end :=
    if negb use_exp
    then (if decpt <? digits_len then digits_len else decpt + 1)
    else (if decpt <? digits_len then digits_len else decpt) in
  let p := if sign then Py.lit "-" else [] in
  (* zero padding on left of digit string *)
  let p :=
    p ++ (if decpt <=? 0
          then zeros (decpt - vdigits_start) ++ Py.lit "." ++ zeros (0 - decpt)
          else zeros (0 - vdigits_start)) in
  (* digits, with included decimal point *)
  let p :=
    p ++ (if (0 <? decpt) && (decpt <=? digits_len)
          then firstn (Z.to_nat decpt) ds ++ Py.lit "."
                 ++ skipn (Z.to_nat decpt) ds
          else ds) in
  (* and zeros on the right *)
  let p :=
    p ++ (if digits_len <? decpt
          then zeros (decpt - digits_len) ++ Py.lit "."
                 ++ zeros (vdigits_end - decpt)
          else zeros (vdigits_end - digits_len)) in
  (* delete a trailing decimal point *)
  let p := if last p 0 =? 46 then removelast p else p in
  if use_exp then p ++ Py.lit "e" ++ exp_text exp else p.

(** [float.__repr__]. *)
Definition repr (x : float) : Py.str :=
  match x with
  | S754_zero s => format_float_short s [0] 1
  | S754_infinity s => if s then Py.lit "-inf" else Py.lit "inf"
  | S754_nan => Py.lit "nan"
  | S754_finite s m e =>
    let (digits, decpt) := dtoa m e in format_float_short s digits decpt
  end.

(** A decimal digit. *)
Definition digit (d : Z) : Prop := 0 <= d <= 9.

(** The exits of the digit loop that hand back decimal digits. *)
Definition good_exit (x : dtoa_exit) : Prop :=
  match x with
  | Ret a => a <> [] /\ Forall digit a
  | Roundoff a => Forall digit a /\ exists a', a = 9 :: a'
  | Exhausted _ => False
  end.

(** Zeros and finite numbers, as opposed to [inf] and [nan]. *)
Definition is_finite (x : float) : bool :=
  match x with
  | S754_zero _ | S754_finite _ _ _ => true
  | _ => false
  end.

(** Whether [repr] writes [x] with an exponent. *)
Definition uses_exponent (x : float) : bool :=
  match x with
  | S754_finite _ m e =>
    let decpt := snd (dtoa m e) in (decpt <=? -4) || (16 <? decpt)
  | _ => false
  end.

End PyFloat.

(* ================================================================== *)
(** * Arguments of the driver's methods and f-string fields *)
(* ================================================================== *)

Module PyValue.

(** The driver's parameters are untyped; the calls in the source pass a
    [str] for the shape and an [int] or a [float] for the numbers. *)
Inductive value : Type :=
| VStr (s : Py.str)
| VInt (n : Z)
| VFloat (x : PyFloat.float).

(** A replacement field [{v}] of an f-string is [format(v, "")], which
    for these three types is [str(v)]. *)
Definition format (v : value) : Py.str :=
  match v with
  | VStr s => s
  | VInt n => Py.int_str n
  | VFloat x => PyFloat.repr x
  end.

(** [sys.int_max_str_digits], which the driver leaves at its default. *)
Definition int_max_str_digits : nat := 4300.

(** The number of decimal digits of an [int], the sign not counted. *)
Definition int_digits (n : Z) : nat := List.length (Py.int_str (Z.abs n)).

(** The conversions that succeed.  [str(n)] raises [ValueError] for an
    [int] of more than [int_max_str_digits] digits, before anything is
    done with the text; [format] is the text of a conversion that
    succeeds, and the statements on [int] arguments are about those. *)
Definition formats (v : value) : bool :=
  match v with
  | VInt n => Nat.leb (int_digits n) int_max_str_digits
  | _ => true
  end.

End PyValue.

(* ================================================================== *)
(** * The world: PyUSB, [time.sleep], [print] *)
(* ================================================================== *)

(** Scope.  The faults of the device are those of [set_configuration],
    of a bulk write and of a bulk read, each given by the environment.
    A discovery that itself raises (no USB backend) and a [print] that
    raises (a stream that cannot encode the text it is given) are not
    in the model. *)

Module World.
Import Py.

(** What [usb.core.find] looks at in an attached device. *)
Record device : Type := { idVendor : Z; idProduct : Z }.

(** The effects a run requests, in the order it requests them. *)
Inductive event : Type :=
| EvFind (vendor product : Z)
| EvSetConfiguration (d : device)
| EvWrite (d : device) (endpoint : Z) (payload : str)
| EvRead (d : device) (endpoint size timeout : Z)
| EvSleep (seconds : PyFloat.float)
| EvPrint (text : str).

Definition trace := list event.

(** What the device answers to a bulk read: the bytes it has to offer,
    or a fault (a timeout is the fault [USBTimeoutError]). *)
Inductive reply : Type :=
| Offer (data : bytes)
| Fault (e : exn).

(** The environment: the attached devices and, for each request, the
    outcome as a function of everything requested before it.  [None]
    is success. *)
Record env : Type := {
  bus : list device;
  on_set_configuration : trace -> device -> option exn;
  on_write : trace -> device -> Z -> str -> option exn;
  on_read : trace -> device -> Z -> Z -> Z -> reply
}.

(** Outcome of a computation: a value or a raised exception. *)
Inductive result (A : Type) : Type :=
| Ok (a : A)
| Raise (e : exn).
Arguments Ok {A} a.
Arguments Raise {A} e.

(** A computation reads the environment, extends the trace, and returns
    or raises; the trace survives a raise. *)
Definition M (A : Type) : Type := env -> trace -> result A * trace.

Definition ret {A : Type} (a : A) : M A := fun _ t => (Ok a, t).

Definition raise {A : Type} (e : exn) : M A := fun _ t => (Raise e, t).

Definition bind {A B : Type} (c : M A) (k : A -> M B) : M B :=
  fun E t =>
    match c E t with
    | (Ok a, t') => k a E t'
    | (Raise e, t') => (Raise e, t')
    end.

(** [try: body  except C: handler], with [C] given by its instance test. *)
Definition try_except {A : Type} (body : M A) (caught : exn -> bool)
  (handler : M A) : M A :=
  fun E t =>
    match body E t with
    | (Raise e, t') => if caught e then handler E t' else (Raise e, t')
    | r => r
    end.

Definition matches (vendor product : Z) (d : device) : bool :=
  (idVendor d =? vendor) && (idProduct d =? product).

(** [usb.core.find(idVendor=v, idProduct=p)]: the first attached device
    whose descriptor has both fields, or [None]. *)
Definition usb_find (vendor product : Z) : M (option device) :=
  fun E t => (Ok (find (matches vendor product) (bus E)),
              t ++ [EvFind vendor product]).

(** [dev.set_configuration()]. *)
Definition set_configuration (d : device) : M unit :=
  fun E t =>
    let t' := t ++ [EvSetConfiguration d] in
    match on_set_configuration E t d with
    | None => (Ok tt, t')
    | Some e => (Raise e, t')
    end.

(** [dev.write(endpoint, payload)]; the number of bytes written that
    PyUSB returns is not used by the driver. *)
Definition write (d : device) (endpoint : Z) (payload : str) : M unit :=
  fun E t =>
    let t' := t ++ [EvWrite d endpoint payload] in
    match on_write E t d endpoint payload with
    | None => (Ok tt, t')
    | Some e => (Raise e, t')
    end.

(** [dev.read(endpoint, size, timeout).tobytes()]: at most [size] of
    the bytes the device offers. *)
Definition read (d : device) (endpoint size timeout : Z) : M bytes :=
  fun E t =>
    let t' := t ++ [EvRead d endpoint size timeout] in
    match on_read E t d endpoint size timeout with
    | Offer data => (Ok (firstn (Z.to_nat size) data), t')
    | Fault e => (Raise e, t')
    end.

(** [time.sleep(seconds)]. *)
Definition sleep (seconds : PyFloat.float) : M unit :=
  fun _ t => (Ok tt, t ++ [EvSleep seconds]).

(** [print(a, b)] writes the arguments separated by a space and ends
    the line; [print(a)] is [print_line a]. *)
Definition print_line (text : str) : M unit :=
  fun _ t => (Ok tt, t ++ [EvPrint (text ++ LF)]).

(** PyUSB sends a [str] payload as its UTF-8 encoding. *)
Definition wire_bytes (payload : str) : option bytes := Utf8.encode payload.

End World.

Declare Scope world_scope.
Delimit Scope world_scope with world.
Notation "x <- c ;; k" := (World.bind c (fun x => k))
  (at level 61, c at next level, right associativity) : world_scope.
Notation "c ;; k" := (World.bind c (fun _ => k))
  (at level 61, right associativity) : world_scope.

(* ================================================================== *)
(** * [class OwonAG051] *)
(* ================================================================== *)

Module OwonAG051.
Import Py World PyValue.
Local Open Scope world_scope.

(** The instance attributes set by [__init__]. *)
Record self : Type := {
  vendor_id : Z;
  product_id : Z;
  timeout : Z;
  dev : device
}.

Definition OUT_ENDPOINT : Z := 0x03. (* Bulk OUT *)
Definition IN_ENDPOINT : Z := 0x81. (* Bulk IN *)

(** Send SCPI command (no response expected). *)
Definition send (o : self) (cmd : str) : M unit :=
  write (dev o) OUT_ENDPOINT (cmd ++ CR) ;;
  sleep (PyFloat.decimal 5 2). (* 0.05: short delay *)

(** Send SCPI command and return the response (if any). *)
Definition query (o : self) (cmd : str) : M str :=
  write (dev o) OUT_ENDPOINT (cmd ++ CR) ;;
  try_except
    (data <- read (dev o) IN_ENDPOINT 4096 (timeout o) ;;
     ret (strip (Utf8.decode data)))
    is_USBTimeoutError
    (ret (lit "")).

Definition not_found : string :=
  "OWON AG051 not found. Check USB connection and driver (WinUSB).".

Definition __init__ (vendor_id product_id timeout : Z) : M self :=
  found <- usb_find vendor_id product_id ;;
  match found with
  | None => raise (ValueError not_found)
  | Some d =>
    let o := {| vendor_id := vendor_id; product_id := product_id;
                timeout := timeout; dev := d |} in
    set_configuration d ;;
    idn <- query o (lit "*IDN?") ;;
    print_line (lit "Connected:" ++ lit " " ++ idn) ;;
    ret o
  end.

(** The defaults of [__init__]. *)
Definition default_vendor_id : Z := 0x5345.
Definition default_product_id : Z := 0x1234.
Definition default_timeout : Z := 1000.

(** Reset instrument to default state. *)
Definition reset (o : self) : M unit :=
  send o (lit "*RST") ;;
  sleep (PyFloat.decimal 5 1). (* 0.5 *)

(** Set waveform function type. *)
Definition set_function (o : self) (shape : value) : M unit :=
  send o (lit ":FUNCtion " ++ format shape).

(** Set output frequency in Hz. *)
Definition set_frequency (o : self) (freq_hz : value) : M unit :=
  send o (lit ":FUNCtion:FREQuency " ++ format freq_hz).

(** Set amplitude in volts peak-to-peak. *)
Definition set_amplitude (o : self) (amplitude_vpp : value) : M unit :=
  send o (lit ":FUNCtion:AMPLitude " ++ format amplitude_vpp).

(** Set DC offset in volts. *)
Definition set_offset (o : self) (offset_v : value) : M unit :=
  send o (lit ":FUNCtion:OFFSet " ++ format offset_v).

(** Enable output channel. *)
Definition output_on (o : self) : M unit := send o (lit ":CHANnel ON").

(** Disable output channel. *)
Definition output_off (o : self) : M unit := send o (lit ":CHANnel OFF").

(** Configure full waveform in one call. *)
Definition configure_waveform (o : self) (shape freq ampl offset : value)
  : M unit :=
  set_function o shape ;;
  set_frequency o freq ;;
  set_amplitude o ampl ;;
  set_offset o offset.

(** The defaults of [configure_waveform]:
    [shape="SINE", freq=1000, ampl=2.0, offset=0.0]. *)
Definition default_shape : value := VStr (lit "SINE").
Definition default_freq : value := VInt 1000.
Definition default_ampl : value := VFloat (PyFloat.decimal 20 1).
Definition default_offset : value := VFloat (PyFloat.decimal 0 1).

(** Print device info and firmware version. *)
Definition info (o : self) : M unit :=
  idn <- query o (lit "*IDN?") ;;
  print_line idn.

(** The script under [if __name__ == "__main__"]. *)
Definition main : M unit :=
  gen <- __init__ default_vendor_id default_product_id default_timeout ;;
  reset gen.

End OwonAG051.

(* ================================================================== *)
(** * Observations on traces, and simulated transports *)
(* ================================================================== *)

Module Obs.
Import Py World OwonAG051.

(** The payloads of the bulk writes of a trace, in order. *)
Fixpoint payloads (t : trace) : list str :=
  match t with
  | [] => []
  | EvWrite _ _ p :: t' => p :: payloads t'
  | _ :: t' => payloads t'
  end.

(** The sizes asked for by the bulk reads of a trace, in order. *)
Fixpoint read_sizes (t : trace) : list Z :=
  match t with
  | [] => []
  | EvRead _ _ size _ :: t' => size :: read_sizes t'
  | _ :: t' => read_sizes t'
  end.

(** The delays of a trace, in order. *)
Fixpoint delays (t : trace) : list PyFloat.float :=
  match t with
  | [] => []
  | EvSleep d :: t' => d :: delays t'
  | _ :: t' => delays t'
  end.

(** USB operations other than discovery. *)
Definition is_device_io (ev : event) : bool :=
  match ev with
  | EvSetConfiguration _ | EvWrite _ _ _ | EvRead _ _ _ _ => true
  | _ => false
  end.

(** The trace of one successful [send]. *)
Definition sent_one (o : self) (cmd : str) : trace :=
  [EvWrite (dev o) OUT_ENDPOINT (cmd ++ CR); EvSleep (PyFloat.decimal 5 2)].

(** The trace of successful [send]s of the commands [cmds], in order. *)
Definition sent (o : self) (cmds : list str) : trace :=
  flat_map (sent_one o) cmds.

(** The four commands of the SCPI vocabulary that a waveform
    configuration is made of, in the order Function, Frequency,
    Amplitude, Offset. *)
Definition waveform_commands (shape freq ampl offset : PyValue.value)
  : list str :=
  [ lit ":FUNCtion " ++ PyValue.format shape;
    lit ":FUNCtion:FREQuency " ++ PyValue.format freq;
    lit ":FUNCtion:AMPLitude " ++ PyValue.format ampl;
    lit ":FUNCtion:OFFSet " ++ PyValue.format offset ].

(** Plain decimal text: an optional sign, then digits with at most one
    decimal point among them and a digit on each side of it. *)
Definition is_digit (c : codepoint) : bool := (48 <=? c) && (c <=? 57).

Definition all_digits (s : str) : bool :=
  negb (Nat.eqb (List.length s) 0) && forallb is_digit s.

Fixpoint split_at_point (s : str) : str * option str :=
  match s with
  | [] => ([], None)
  | c :: s' =>
    if c =? 46 then ([], Some s')
    else let (a, b) := split_at_point s' in (c :: a, b)
  end.

Definition plain_decimal (s : str) : bool :=
  let body := match s with
              | c :: s' => if c =? 45 then s' else s
              | [] => []
              end in
  match split_at_point body with
  | (int_part, None) => all_digits int_part
  | (int_part, Some frac_part) => all_digits int_part && all_digits frac_part
  end.

(** A run of [send]s over a list of commands, as [configure_waveform]
    chains them: stop at the first write that faults. *)
Fixpoint send_all (o : self) (cmds : list str) : M unit :=
  match cmds with
  | [] => ret tt
  | c :: cmds' => bind (send o c) (fun _ => send_all o cmds')
  end.

(** The specification's wording of the command formats: whatever the
    arguments, when the device accepts every write the four payloads
    are the four templates, each number filled in as plain decimal
    text. *)
Definition spec_plain_decimal_interpolation : Prop :=
  forall (o : self) (shape freq ampl offset : PyValue.value) (E : env)
         (t : trace),
    (forall t' d ep p, on_write E t' d ep p = None) ->
    exists f a v,
      plain_decimal f = true /\ plain_decimal a = true
      /\ plain_decimal v = true
      /\ payloads (snd (configure_waveform o shape freq ampl offset E t))
         = payloads t
           ++ [ lit ":FUNCtion " ++ PyValue.format shape ++ CR;
                lit ":FUNCtion:FREQuency " ++ f ++ CR;
                lit ":FUNCtion:AMPLitude " ++ a ++ CR;
                lit ":FUNCtion:OFFSet " ++ v ++ CR ].

(** [subseq k l]: [k] is [l] with some elements removed. *)
Inductive subseq {A : Type} : list A -> list A -> Prop :=
| subseq_nil : subseq [] []
| subseq_keep (x : A) (k l : list A) : subseq k l -> subseq (x :: k) (x :: l)
| subseq_drop (x : A) (k l : list A) : subseq k l -> subseq k (x :: l).

(** The values a byte can take. *)
Definition is_byte (z : Z) : Prop := 0 <= z < 256.

(** A start byte that begins no UTF-8 sequence: a continuation byte,
    an overlong lead (C0, C1) or a lead above F4. *)
Definition invalid_start (b : byte) : bool :=
  let v := byte_val b in ((0x80 <=? v) && (v <? 0xC2)) || (0xF5 <=? v).

(** A computation that never asks for a bulk read. *)
Definition never_reads {A : Type} (c : M A) : Prop :=
  forall E t, exists new, snd (c E t) = t ++ new /\ read_sizes new = [].

(** The writes that succeed before the [n]-th command of [cmds], and
    the [n]-th that faults with [e]. *)
Definition faults_at (E : env) (t : trace) (o : self) (cmds : list str)
  (n : nat) (e : exn) : Prop :=
  (forall k, (k < n)%nat ->
     on_write E (t ++ sent o (firstn k cmds)) (dev o) OUT_ENDPOINT
       (nth k cmds [] ++ CR) = None)
  /\ on_write E (t ++ sent o (firstn n cmds)) (dev o) OUT_ENDPOINT
       (nth n cmds [] ++ CR) = Some e.

End Obs.

Module Sim.
Import Py World OwonAG051.

(** The instrument with the default identifiers. *)
Definition ag051 : device := {| idVendor := 0x5345; idProduct := 0x1234 |}.

Definition gen : self :=
  {| vendor_id := 0x5345; product_id := 0x1234; timeout := 1000;
     dev := ag051 |}.

(** The identity line [b"OWON,AG051,12345,1.0\r\n"]. *)
Definition idn_line : bytes :=
  map byte_of_Z (lit "OWON,AG051,12345,1.0" ++ CR ++ LF).

(** An instrument that answers every read with its identity. *)
Definition answering : env :=
  {| bus := [ag051];
     on_set_configuration := fun _ _ => None;
     on_write := fun _ _ _ _ => None;
     on_read := fun _ _ _ _ _ => Offer idn_line |}.

(** An instrument that never answers: every read times out. *)
Definition silent : env :=
  {| bus := [ag051];
     on_set_configuration := fun _ _ => None;
     on_write := fun _ _ _ _ => None;
     on_read := fun _ _ _ _ _ =>
       Fault (USBTimeoutError "Operation timed out") |}.

(** An instrument whose IN endpoint is stalled. *)
Definition stalled : env :=
  {| bus := [ag051];
     on_set_configuration := fun _ _ => None;
     on_write := fun _ _ _ _ => None;
     on_read := fun _ _ _ _ _ => Fault (USBError "Pipe error") |}.

(** An instrument that was unplugged after discovery. *)
Definition unplugged : env :=
  {| bus := [ag051];
     on_set_configuration := fun _ _ => None;
     on_write := fun _ _ _ _ => Some (USBError "No such device");
     on_read := fun _ _ _ _ _ => Fault (USBError "No such device") |}.

(** A bus with another vendor's device only. *)
Definition absent : env :=
  {| bus := [{| idVendor := 0x046D; idProduct := 0xC077 |}];
     on_set_configuration := fun _ _ => None;
     on_write := fun _ _ _ _ => None;
     on_read := fun _ _ _ _ _ => Offer [] |}.

(** An instrument whose [n]-th bulk write (counting from 0) faults. *)
Definition failing_write (n : nat) : env :=
  {| bus := [ag051];
     on_set_configuration := fun _ _ => None;
     on_write := fun t _ _ _ =>
       if Nat.eqb (List.length (Obs.payloads t)) n
       then Some (USBError "Input/Output Error") else None;
     on_read := fun _ _ _ _ _ => Offer [] |}.

(** An instrument that offers [n] letters [A] to every read. *)
Definition flooding (n : nat) : env :=
  {| bus := [ag051];
     on_set_configuration := fun _ _ => None;
     on_write := fun _ _ _ _ => None;
     on_read := fun _ _ _ _ _ => Offer (repeat x41 n) |}.

End Sim.

(* ================================================================== *)
(** * Calls, scripts and further observations *)
(* ================================================================== *)

Module Calls.
Import Py World OwonAG051 Obs.

(** A call of one of the methods that send and expect no response. *)
Inductive call : Type :=
| Send (cmd : str)
| Reset
| SetFunction (shape : PyValue.value)
| SetFrequency (freq_hz : PyValue.value)
| SetAmplitude (amplitude_vpp : PyValue.value)
| SetOffset (offset_v : PyValue.value)
| OutputOn
| OutputOff
| ConfigureWaveform (shape freq ampl offset : PyValue.value).

(** The method a call stands for. *)
Definition run (o : self) (c : call) : M unit :=
  match c with
  | Send cmd => send o cmd
  | Reset => reset o
  | SetFunction shape => set_function o shape
  | SetFrequency freq_hz => set_frequency o freq_hz
  | SetAmplitude amplitude_vpp => set_amplitude o amplitude_vpp
  | SetOffset offset_v => set_offset o offset_v
  | OutputOn => output_on o
  | OutputOff => output_off o
  | ConfigureWaveform shape freq ampl offset =>
    configure_waveform o shape freq ampl offset
  end.

(** A script: calls made one after the other on the same instance, as
    under [if __name__ == "__main__"]; an exception ends it. *)
Fixpoint run_script (o : self) (cs : list call) : M unit :=
  match cs with
  | [] => ret tt
  | c :: cs' => bind (run o c) (fun _ => run_script o cs')
  end.

(** The commands a call sends when no write faults, in order. *)
Definition commands (c : call) : list str :=
  match c with
  | Send cmd => [cmd]
  | Reset => [lit "*RST"]
  | SetFunction shape => [lit ":FUNCtion " ++ PyValue.format shape]
  | SetFrequency freq_hz =>
    [lit ":FUNCtion:FREQuency " ++ PyValue.format freq_hz]
  | SetAmplitude amplitude_vpp =>
    [lit ":FUNCtion:AMPLitude " ++ PyValue.format amplitude_vpp]
  | SetOffset offset_v => [lit ":FUNCtion:OFFSet " ++ PyValue.format offset_v]
  | OutputOn => [lit ":CHANnel ON"]
  | OutputOff => [lit ":CHANnel OFF"]
  | ConfigureWaveform shape freq ampl offset =>
    waveform_commands shape freq ampl offset
  end.

(** The delays a call adds after its last send. *)
Definition settle (c : call) : trace :=
  match c with
  | Reset => [EvSleep (PyFloat.decimal 5 1)]
  | _ => []
  end.

(** Every write of the commands [cmds] is accepted, starting from the
    trace [t]. *)
Definition accepted (E : env) (t : trace) (o : self) (cmds : list str)
  : Prop :=
  forall k, (k < List.length cmds)%nat ->
    on_write E (t ++ sent o (firstn k cmds)) (dev o) OUT_ENDPOINT
      (nth k cmds [] ++ CR) = None.

(** A trace in which every write is followed at once by the pause of
    0.05 s, unless it is the last effect. *)
Inductive paced : trace -> Prop :=
| paced_nil : paced []
| paced_last (d : device) (ep : Z) (p : str) : paced [EvWrite d ep p]
| paced_write (d : device) (ep : Z) (p : str) (t : trace) :
    paced t -> paced (EvWrite d ep p :: EvSleep (PyFloat.decimal 5 2) :: t)
| paced_sleep (s : PyFloat.float) (t : trace) :
    paced t -> paced (EvSleep s :: t).

(** The lines printed in a trace, in order. *)
Fixpoint printed (t : trace) : list str :=
  match t with
  | [] => []
  | EvPrint text :: t' => text :: printed t'
  | _ :: t' => printed t'
  end.

(** An effect on the instance's own channel: a write to its device on
    the OUT endpoint, a read of 4096 bytes from its device on the IN
    endpoint with its timeout, a delay or a print. *)
Definition on_channel (o : self) (ev : event) : Prop :=
  match ev with
  | EvWrite d ep _ => d = dev o /\ ep = OUT_ENDPOINT
  | EvRead d ep size tmo =>
    d = dev o /\ ep = IN_ENDPOINT /\ size = 4096 /\ tmo = timeout o
  | EvSleep _ | EvPrint _ => True
  | EvFind _ _ | EvSetConfiguration _ => False
  end.

(** A computation all of whose effects are on the channel of [o]. *)
Definition keeps_channel {A : Type} (o : self) (c : M A) : Prop :=
  forall E t, exists new, snd (c E t) = t ++ new /\ Forall (on_channel o) new.

(** A Unicode scalar value: a code point that is no surrogate. *)
Definition scalar (c : codepoint) : Prop :=
  0 <= c <= 0x10FFFF /\ ~ (0xD800 <= c <= 0xDFFF).

Definition is_ascii (c : codepoint) : bool := (0 <=? c) && (c <? 0x80).

(** An argument that is a number or a [str] of ASCII characters. *)
Definition ascii_value (v : PyValue.value) : bool :=
  match v with
  | PyValue.VStr s => forallb is_ascii s
  | _ => true
  end.

(** A call whose [str] arguments are ASCII. *)
Definition ascii_call (c : call) : bool :=
  match c with
  | Send cmd => forallb is_ascii cmd
  | Reset | OutputOn | OutputOff => true
  | SetFunction v | SetFrequency v | SetAmplitude v | SetOffset v =>
    ascii_value v
  | ConfigureWaveform shape freq ampl offset =>
    ascii_value shape && ascii_value freq && ascii_value ampl
      && ascii_value offset
  end.

(** The UTF-8 encoding of ASCII text: one byte for each character. *)
Definition ascii_bytes (s : str) : bytes := map byte_of_Z s.

(** A call all of whose arguments can be converted to text. *)
Definition call_formats (c : call) : bool :=
  match c with
  | Send _ | Reset | OutputOn | OutputOff => true
  | SetFunction v | SetFrequency v | SetAmplitude v | SetOffset v =>
    PyValue.formats v
  | ConfigureWaveform shape freq ampl offset =>
    PyValue.formats shape && PyValue.formats freq && PyValue.formats ampl
      && PyValue.formats offset
  end.

End Calls.

Module Sim2.
Import Py World OwonAG051.

(** An instrument that refuses its configuration. *)
Definition busy : env :=
  {| bus := [Sim.ag051];
     on_set_configuration := fun _ _ => Some (USBError "Resource busy");
     on_write := fun _ _ _ _ => None;
     on_read := fun _ _ _ _ _ => Offer [] |}.

(** An instrument that answers every read with an empty line. *)
Definition blank : env :=
  {| bus := [Sim.ag051];
     on_set_configuration := fun _ _ => None;
     on_write := fun _ _ _ _ => None;
     on_read := fun _ _ _ _ _ => Offer [x0d; x0a] |}.

(** An instrument that sends back the last payload written to it. *)
Definition echoing : env :=
  {| bus := [Sim.ag051];
     on_set_configuration := fun _ _ => None;
     on_write := fun _ _ _ _ => None;
     on_read := fun t _ _ _ _ =>
       match wire_bytes (last (Obs.payloads t) []) with
       | Some bs => Offer bs
       | None => Offer []
       end |}.

(** An instrument whose answer of 4095 letters [A] and one [e] with an
    acute accent (two bytes) does not fit in one read. *)
Definition accented : env :=
  {| bus := [Sim.ag051];
     on_set_configuration := fun _ _ => None;
     on_write := fun _ _ _ _ => None;
     on_read := fun _ _ _ _ _ => Offer (repeat x41 4095 ++ [xc3; xa9]) |}.

(** A bus with two instruments of the same model. *)
Definition twin : env :=
  {| bus := [{| idVendor := 0x046D; idProduct := 0xC077 |};
             Sim.ag051; Sim.ag051];
     on_set_configuration := fun _ _ => None;
     on_write := fun _ _ _ _ => None;
     on_read := fun _ _ _ _ _ => Offer Sim.idn_line |}.

End Sim2.

(* ================================================================== *)
(** * Runs of the two channel primitives *)
(* ================================================================== *)

Import Py World OwonAG051 Obs.
Local Open Scope world_scope.

(** One [send]: the write, and the pacing delay only after a write
    that succeeded. *)
Lemma send_run (o : self) (cmd : str) (E : env) (t : trace) :
  send o cmd E t =
  match on_write E t (dev o) OUT_ENDPOINT (cmd ++ CR) with
  | None => (Ok tt, t ++ sent_one o cmd)
  | Some e => (Raise e, t ++ [EvWrite (dev o) OUT_ENDPOINT (cmd ++ CR)])
  end.
Proof.
  unfold send, bind, write, sleep, sent_one.
  destruct (on_write E t (dev o) OUT_ENDPOINT (cmd ++ CR)) as [e|].
  - reflexivity.
  - rewrite <- app_assoc. reflexivity.
Qed.

(** One [query]: the write, then, if it succeeded, one read. *)
Lemma query_run (o : self) (cmd : str) (E : env) (t : trace) :
  let w := EvWrite (dev o) OUT_ENDPOINT (cmd ++ CR) in
  let r := EvRead (dev o) IN_ENDPOINT 4096 (timeout o) in
  query o cmd E t =
  match on_write E t (dev o) OUT_ENDPOINT (cmd ++ CR) with
  | Some e => (Raise e, t ++ [w])
  | None =>
    match on_read E (t ++ [w]) (dev o) IN_ENDPOINT 4096 (timeout o) with
    | Offer data => (Ok (strip (Utf8.decode (firstn 4096 data))), t ++ [w; r])
    | Fault e =>
      if is_USBTimeoutError e then (Ok [], t ++ [w; r])
      else (Raise e, t ++ [w; r])
    end
  end.
Proof.
  intros w r. unfold query, bind, try_except, write, read, ret.
  fold w. destruct (on_write E t (dev o) OUT_ENDPOINT (cmd ++ CR)) as [e|].
  - reflexivity.
  - replace ((t ++ [w]) ++ [EvRead (dev o) IN_ENDPOINT 4096 (timeout o)])
      with (t ++ [w; r]) by (rewrite <- app_assoc; reflexivity).
    destruct (on_read E (t ++ [w]) (dev o) IN_ENDPOINT 4096 (timeout o))
      as [data|e].
    + reflexivity.
    + destruct (is_USBTimeoutError e); reflexivity.
Qed.

(** The script on an instrument that answers: discovery, configuration,
    the identity query and its print, then the reset and its delays. *)
Example main_run :
  main Sim.answering []
  = (Ok tt,
     [ EvFind 0x5345 0x1234;
       EvSetConfiguration Sim.ag051;
       EvWrite Sim.ag051 0x03 (lit "*IDN?" ++ CR);
       EvRead Sim.ag051 0x81 4096 1000;
       EvPrint (lit "Connected: OWON,AG051,12345,1.0" ++ LF);
       EvWrite Sim.ag051 0x03 (lit "*RST" ++ CR);
       EvSleep (PyFloat.decimal 5 2);
       EvSleep (PyFloat.decimal 5 1) ]).
Proof. vm_compute. reflexivity. Qed.

Section Observations.
Variables t1 t2 : trace.

Lemma payloads_app :
  payloads (t1 ++ t2) = payloads t1 ++ payloads t2.
Proof.
  induction t1 as [|ev t IH]; [reflexivity|].
  destruct ev; simpl; rewrite IH; reflexivity.
Qed.

Lemma read_sizes_app :
  read_sizes (t1 ++ t2) = read_sizes t1 ++ read_sizes t2.
Proof.
  induction t1 as [|ev t IH]; [reflexivity|].
  destruct ev; simpl; rewrite IH; reflexivity.
Qed.

Lemma delays_app :
  delays (t1 ++ t2) = delays t1 ++ delays t2.
Proof.
  induction t1 as [|ev t IH]; [reflexivity|].
  destruct ev; simpl; rewrite IH; reflexivity.
Qed.

End Observations.

Create Rewrite HintDb traces.
#[local] Hint Rewrite payloads_app read_sizes_app delays_app : traces.

(* ================================================================== *)
(** * Query: timeouts and faults *)
(* ================================================================== *)

(** C1.  Whatever the command, a [query] whose read times out returns
    the empty string as an ordinary result; a read fault that is not a
    timeout is raised to the caller as it is, and so is every fault of
    the write, a timeout included. *)
Theorem query_timeout_is_empty_fault_propagates
  (o : self) (cmd : str) (E : env) (t : trace) :
  let w := EvWrite (dev o) OUT_ENDPOINT (cmd ++ CR) in
  let r := EvRead (dev o) IN_ENDPOINT 4096 (timeout o) in
  (forall e,
     on_write E t (dev o) OUT_ENDPOINT (cmd ++ CR) = None ->
     on_read E (t ++ [w]) (dev o) IN_ENDPOINT 4096 (timeout o) = Fault e ->
     is_USBTimeoutError e = true ->
     query o cmd E t = (Ok (lit ""), t ++ [w; r]))
  /\ (forall e,
     on_write E t (dev o) OUT_ENDPOINT (cmd ++ CR) = None ->
     on_read E (t ++ [w]) (dev o) IN_ENDPOINT 4096 (timeout o) = Fault e ->
     is_USBTimeoutError e = false ->
     query o cmd E t = (Raise e, t ++ [w; r]))
  /\ (forall e,
     on_write E t (dev o) OUT_ENDPOINT (cmd ++ CR) = Some e ->
     query o cmd E t = (Raise e, t ++ [w])).
Proof.
  intros w r. pose proof (query_run o cmd E t) as Q. cbv zeta in Q.
  fold w r in Q. repeat split; intros e.
  - intros Hw Hr He. rewrite Q, Hw, Hr, He. reflexivity.
  - intros Hw Hr He. rewrite Q, Hw, Hr, He. reflexivity.
  - intros Hw. rewrite Q, Hw. reflexivity.
Qed.

Lemma query_timeout_is_empty_fault_propagates_witness :
  query Sim.gen (lit "*IDN?") Sim.silent [] =
    (Ok [], [EvWrite Sim.ag051 3 (lit "*IDN?" ++ CR);
             EvRead Sim.ag051 0x81 4096 1000])
  /\ query Sim.gen (lit "*IDN?") Sim.stalled [] =
    (Raise (USBError "Pipe error"),
     [EvWrite Sim.ag051 3 (lit "*IDN?" ++ CR);
      EvRead Sim.ag051 0x81 4096 1000])
  /\ query Sim.gen (lit "*IDN?") Sim.unplugged [] =
    (Raise (USBError "No such device"),
     [EvWrite Sim.ag051 3 (lit "*IDN?" ++ CR)]).
Proof.
  split; [|split].
  - apply (proj1 (query_timeout_is_empty_fault_propagates
                    Sim.gen (lit "*IDN?") Sim.silent [])
             (USBTimeoutError "Operation timed out")); reflexivity.
  - apply (proj1 (proj2 (query_timeout_is_empty_fault_propagates
                    Sim.gen (lit "*IDN?") Sim.stalled []))
             (USBError "Pipe error")); reflexivity.
  - apply (proj2 (proj2 (query_timeout_is_empty_fault_propagates
                    Sim.gen (lit "*IDN?") Sim.unplugged []))
             (USBError "No such device")); reflexivity.
Defined.

(** C10.  A [query] writes before it reads, and unconditionally: the
    first effect of every run is the write of the command with its
    terminator; a run that returns a string, the empty string of a
    timed-out read included, has had that write accepted by the device
    and has made its one read after it. *)
Theorem query_result_implies_command_written
  (o : self) (cmd : str) (E : env) (t : trace) :
  let w := EvWrite (dev o) OUT_ENDPOINT (cmd ++ CR) in
  let r := EvRead (dev o) IN_ENDPOINT 4096 (timeout o) in
  (exists res rest, query o cmd E t = (res, t ++ w :: rest))
  /\ (forall s t',
        query o cmd E t = (Ok s, t') ->
        on_write E t (dev o) OUT_ENDPOINT (cmd ++ CR) = None
        /\ t' = t ++ [w; r])
  /\ (forall e,
        on_write E t (dev o) OUT_ENDPOINT (cmd ++ CR) = None ->
        on_read E (t ++ [w]) (dev o) IN_ENDPOINT 4096 (timeout o) = Fault e ->
        is_USBTimeoutError e = true ->
        query o cmd E t = (Ok (lit ""), t ++ [w; r])
        /\ payloads (snd (query o cmd E t)) = payloads t ++ [cmd ++ CR]).
Proof.
  intros w r. pose proof (query_run o cmd E t) as Q. cbv zeta in Q.
  fold w r in Q. split; [|split].
  - rewrite Q.
    destruct (on_write E t (dev o) OUT_ENDPOINT (cmd ++ CR)) as [e|].
    + exists (Raise e), []. reflexivity.
    + destruct (on_read E (t ++ [w]) (dev o) IN_ENDPOINT 4096 (timeout o))
        as [data|e].
      * eexists; exists [r]; reflexivity.
      * destruct (is_USBTimeoutError e); eexists; exists [r]; reflexivity.
  - intros s t'. rewrite Q.
    destruct (on_write E t (dev o) OUT_ENDPOINT (cmd ++ CR)) as [e|].
    + discriminate.
    + destruct (on_read E (t ++ [w]) (dev o) IN_ENDPOINT 4096 (timeout o))
        as [data|e].
      * intros H. inversion H. split; reflexivity.
      * destruct (is_USBTimeoutError e); intros H; inversion H.
        split; reflexivity.
  - intros e Hw Hr He. rewrite Q, Hw, Hr, He. split; [reflexivity|].
    simpl snd. autorewrite with traces. reflexivity.
Qed.

Lemma query_result_implies_command_written_witness :
  on_write Sim.silent [] Sim.ag051 OUT_ENDPOINT (lit "*IDN?" ++ CR) = None
  /\ payloads (snd (query Sim.gen (lit "*IDN?") Sim.silent []))
     = [lit "*IDN?" ++ CR].
Proof.
  pose proof (query_result_implies_command_written
                Sim.gen (lit "*IDN?") Sim.silent []) as [_ [H2 H3]].
  split.
  - apply (H2 [] [EvWrite Sim.ag051 3 (lit "*IDN?" ++ CR);
                  EvRead Sim.ag051 0x81 4096 1000]). reflexivity.
  - apply (H3 (USBTimeoutError "Operation timed out")); reflexivity.
Defined.

(* ================================================================== *)
(** * Send: the terminator *)
(* ================================================================== *)

Lemma encode_app (a b : str) :
  Utf8.encode (a ++ b) =
  match Utf8.encode a, Utf8.encode b with
  | Some x, Some y => Some (x ++ y)
  | _, _ => None
  end.
Proof.
  induction a as [|c a IH]; simpl.
  - destruct (Utf8.encode b); reflexivity.
  - rewrite IH. destruct (Utf8.encode_codepoint c) as [x|]; [|reflexivity].
    destruct (Utf8.encode a) as [xs|]; [|reflexivity].
    destruct (Utf8.encode b) as [ys|]; [|reflexivity].
    rewrite app_assoc. reflexivity.
Qed.

(** C2.  [send] asks for one write, on the OUT endpoint, of the command
    followed by one carriage return, and [query] writes the same
    payload; nothing is removed or added when the command already ends
    with a carriage return; on the wire the payload is the bytes of the
    command followed by the byte 0x0D, and for ["*RST"] it is
    [b"*RST\r"]. *)
Theorem send_appends_one_terminator
  (o : self) (cmd : str) (E : env) (t : trace) :
  (exists res rest,
     send o cmd E t
       = (res, t ++ EvWrite (dev o) OUT_ENDPOINT (cmd ++ CR) :: rest)
     /\ payloads rest = [])
  /\ payloads (snd (query o cmd E t)) = payloads t ++ [cmd ++ CR]
  /\ payloads (snd (send o (cmd ++ CR) E t)) = payloads t ++ [cmd ++ CR ++ CR]
  /\ (forall bs, wire_bytes cmd = Some bs ->
        wire_bytes (cmd ++ CR) = Some (bs ++ [x0d]))
  /\ wire_bytes (lit "*RST" ++ CR) = Some [x2a; x52; x53; x54; x0d].
Proof.
  split; [|split; [|split; [|split]]].
  - rewrite send_run. unfold sent_one.
    destruct (on_write E t (dev o) OUT_ENDPOINT (cmd ++ CR)) as [e|].
    + exists (Raise e), []. split; reflexivity.
    + exists (Ok tt), [EvSleep (PyFloat.decimal 5 2)]. split; reflexivity.
  - pose proof (query_run o cmd E t) as Q. cbv zeta in Q. rewrite Q.
    destruct (on_write E t (dev o) OUT_ENDPOINT (cmd ++ CR)) as [e|].
    + simpl snd. autorewrite with traces. reflexivity.
    + destruct (on_read E _ (dev o) IN_ENDPOINT 4096 (timeout o)) as [d|e];
        [|destruct (is_USBTimeoutError e)];
        simpl snd; autorewrite with traces; reflexivity.
  - rewrite send_run. unfold sent_one. rewrite <- app_assoc.
    destruct (on_write E t (dev o) OUT_ENDPOINT (cmd ++ CR ++ CR)) as [e|];
      simpl snd; autorewrite with traces; reflexivity.
  - intros bs H. unfold wire_bytes in *. rewrite encode_app, H. reflexivity.
  - reflexivity.
Qed.

Lemma send_appends_one_terminator_witness :
  wire_bytes (lit ":CHANnel ON" ++ CR)
  = Some (map byte_of_Z (lit ":CHANnel ON") ++ [x0d]).
Proof.
  apply (proj1 (proj2 (proj2 (proj2 (send_appends_one_terminator
           Sim.gen (lit ":CHANnel ON") Sim.answering []))))).
  reflexivity.
Defined.

(* ================================================================== *)
(** * Construction *)
(* ================================================================== *)

Lemma find_none_of_no_match (vid pid : Z) (l : list device) :
  (forall d, In d l -> ~ (idVendor d = vid /\ idProduct d = pid)) ->
  find (matches vid pid) l = None.
Proof.
  induction l as [|d l IH]; intros H; [reflexivity|].
  simpl. destruct (matches vid pid d) eqn:M.
  - exfalso. apply (H d (or_introl eq_refl)).
    unfold matches in M. apply andb_prop in M. destruct M as [M1 M2].
    split; apply Z.eqb_eq; assumption.
  - apply IH. intros d' Hd'. apply H. right. exact Hd'.
Qed.

(** C3.  When no attached device has the vendor and product identifiers
    asked for, construction raises the driver's not-found error (the
    [ValueError] with the not-found message, which is what the
    specification calls DeviceNotFoundError) after the single discovery
    call: nothing is configured, written or read, and discovery is not
    tried again.  The error is fatal to the caller's run: whatever was
    to follow the construction is not executed. *)
Theorem init_not_found_raises_before_any_io
  (vid pid tmo : Z) (E : env) (t : trace) :
  (forall d, In d (bus E) -> ~ (idVendor d = vid /\ idProduct d = pid)) ->
  __init__ vid pid tmo E t
    = (Raise (ValueError not_found), t ++ [EvFind vid pid])
  /\ filter is_device_io [EvFind vid pid] = []
  /\ (forall (B : Type) (k : self -> M B),
        bind (__init__ vid pid tmo) k E t
        = (Raise (ValueError not_found), t ++ [EvFind vid pid])).
Proof.
  intros H.
  assert (R : __init__ vid pid tmo E t
              = (Raise (ValueError not_found), t ++ [EvFind vid pid])).
  { unfold __init__, bind, usb_find, raise.
    rewrite (find_none_of_no_match vid pid (bus E) H). reflexivity. }
  split; [exact R|]. split; [reflexivity|].
  intros B k. unfold bind at 1. rewrite R. reflexivity.
Qed.

Lemma init_not_found_raises_before_any_io_witness :
  __init__ default_vendor_id default_product_id default_timeout Sim.absent []
  = (Raise (ValueError not_found), [EvFind 0x5345 0x1234]).
Proof.
  apply (proj1 (init_not_found_raises_before_any_io
                  default_vendor_id default_product_id default_timeout
                  Sim.absent [] ltac:(simpl; intros d [<-|[]] [H _];
                                      vm_compute in H; discriminate))).
Defined.

(* ================================================================== *)
(** * One write, at most one read; sends never read *)
(* ================================================================== *)

Lemma never_reads_send (o : self) (cmd : str) : never_reads (send o cmd).
Proof.
  intros E t. rewrite send_run.
  destruct (on_write E t (dev o) OUT_ENDPOINT (cmd ++ CR)) as [e|];
    eexists; split; reflexivity.
Qed.

Lemma never_reads_sleep (d : PyFloat.float) : never_reads (sleep d).
Proof. intros E t. eexists; split; reflexivity. Qed.

Lemma never_reads_seq {A B : Type} (c : M A) (k : A -> M B) :
  never_reads c -> (forall a, never_reads (k a)) -> never_reads (bind c k).
Proof.
  intros Hc Hk E t. unfold bind.
  destruct (Hc E t) as [n1 [H1 R1]].
  destruct (c E t) as [[a|e] t1]; simpl in H1; subst t1.
  - destruct (Hk a E (t ++ n1)) as [n2 [H2 R2]].
    exists (n1 ++ n2). rewrite H2, app_assoc, read_sizes_app, R1, R2.
    split; reflexivity.
  - exists n1. split; [reflexivity | exact R1].
Qed.

Ltac solve_never_reads :=
  first [ apply never_reads_send
        | apply never_reads_sleep
        | apply never_reads_seq;
          [solve_never_reads | intros _; solve_never_reads] ].

(** C6.  A [query] makes one write and then at most one read, with no
    second attempt of either: its effects are the write alone (when the
    write faults) or the write followed by one read.  [send], and with
    it every set, reset and output operation, never asks for a read. *)
Theorem query_one_write_one_read_send_never_reads
  (o : self) (cmd : str) (shape freq ampl offset : PyValue.value)
  (E : env) (t : trace) :
  let w := EvWrite (dev o) OUT_ENDPOINT (cmd ++ CR) in
  let r := EvRead (dev o) IN_ENDPOINT 4096 (timeout o) in
  (exists res,
     query o cmd E t = (res, t ++ [w]) \/ query o cmd E t = (res, t ++ [w; r]))
  /\ Forall never_reads
       [ send o cmd; reset o; set_function o shape; set_frequency o freq;
         set_amplitude o ampl; set_offset o offset; output_on o;
         output_off o; configure_waveform o shape freq ampl offset ].
Proof.
  intros w r. split.
  - pose proof (query_run o cmd E t) as Q. cbv zeta in Q. fold w r in Q.
    rewrite Q.
    destruct (on_write E t (dev o) OUT_ENDPOINT (cmd ++ CR)) as [e|].
    + exists (Raise e). left. reflexivity.
    + destruct (on_read E (t ++ [w]) (dev o) IN_ENDPOINT 4096 (timeout o))
        as [d|e]; [|destruct (is_USBTimeoutError e)];
        eexists; right; reflexivity.
  - repeat (apply Forall_cons;
      [ unfold reset, set_function, set_frequency, set_amplitude, set_offset,
          output_on, output_off, configure_waveform; solve_never_reads | ]).
    apply Forall_nil.
Qed.

(* ================================================================== *)
(** * Reset *)
(* ================================================================== *)

(** C8.  [reset] sends ["*RST"] and, once the write has succeeded and
    the 0.05 s pause of [send] has elapsed, sleeps 0.5 s before it
    returns: its delays are 0.05 s then 0.5 s.  The settle delay is
    500 ms exactly, the pause after an ordinary send is 50 ms to within
    a femtosecond, and the first is strictly the longer. *)
Theorem reset_settle_delay (o : self) (E : env) (t : trace) :
  (on_write E t (dev o) OUT_ENDPOINT (lit "*RST" ++ CR) = None ->
   reset o E t
     = (Ok tt, t ++ [EvWrite (dev o) OUT_ENDPOINT (lit "*RST" ++ CR);
                     EvSleep (PyFloat.decimal 5 2);
                     EvSleep (PyFloat.decimal 5 1)])
   /\ delays (snd (reset o E t))
      = delays t ++ [PyFloat.decimal 5 2; PyFloat.decimal 5 1])
  /\ (forall cmd,
        on_write E t (dev o) OUT_ENDPOINT (cmd ++ CR) = None ->
        delays (snd (send o cmd E t)) = delays t ++ [PyFloat.decimal 5 2])
  /\ PyFloat.ltb (PyFloat.decimal 5 2) (PyFloat.decimal 5 1) = true
  /\ (PyFloat.to_Q (PyFloat.decimal 5 1) * 1000 == 500)%Q
  /\ (Qabs (PyFloat.to_Q (PyFloat.decimal 5 2) * 1000 - 50)
        < 1 # 1000000000000)%Q.
Proof.
  split; [|split; [|split; [|split]]].
  - intros Hw. unfold reset, bind. rewrite send_run, Hw. unfold sleep, sent_one.
    rewrite <- app_assoc. split; [reflexivity|].
    simpl snd. autorewrite with traces. reflexivity.
  - intros cmd Hw. rewrite send_run, Hw. unfold sent_one. simpl snd.
    autorewrite with traces. reflexivity.
  - vm_compute. reflexivity.
  - vm_compute. reflexivity.
  - vm_compute. reflexivity.
Qed.

Lemma reset_settle_delay_witness :
  delays (snd (reset Sim.gen Sim.answering []))
  = [PyFloat.decimal 5 2; PyFloat.decimal 5 1].
Proof.
  apply (proj1 (reset_settle_delay Sim.gen Sim.answering [])). reflexivity.
Defined.

(* ================================================================== *)
(** * Waveform configuration: order of the sends, partial failure *)
(* ================================================================== *)

Lemma payloads_sent (o : self) (cmds : list str) :
  payloads (sent o cmds) = map (fun c => c ++ CR) cmds.
Proof. induction cmds as [|c cmds IH]; simpl; [|rewrite IH]; reflexivity. Qed.

Lemma configure_waveform_send_all
  (o : self) (shape freq ampl offset : PyValue.value) (E : env) (t : trace) :
  configure_waveform o shape freq ampl offset E t
  = send_all o (waveform_commands shape freq ampl offset) E t.
Proof.
  unfold configure_waveform, set_function, set_frequency, set_amplitude,
    set_offset, waveform_commands, send_all, bind, ret.
  destruct (send o _ E t) as [[[]|e] t1]; [|reflexivity].
  destruct (send o _ E t1) as [[[]|e] t2]; [|reflexivity].
  destruct (send o _ E t2) as [[[]|e] t3]; [|reflexivity].
  destruct (send o _ E t3) as [[[]|e] t4]; reflexivity.
Qed.

Lemma send_all_ok (o : self) (E : env) (cmds : list str) (t : trace) :
  (forall k, (k < List.length cmds)%nat ->
     on_write E (t ++ sent o (firstn k cmds)) (dev o) OUT_ENDPOINT
       (nth k cmds [] ++ CR) = None) ->
  send_all o cmds E t = (Ok tt, t ++ sent o cmds).
Proof.
  revert t. induction cmds as [|c cmds IH]; intros t H.
  - simpl. unfold ret. rewrite app_nil_r. reflexivity.
  - simpl. unfold bind. rewrite send_run.
    pose proof (H 0%nat ltac:(simpl; lia)) as H0. simpl in H0.
    rewrite app_nil_r in H0. rewrite H0.
    rewrite IH.
    + rewrite <- app_assoc. reflexivity.
    + intros k Hk. specialize (H (S k) ltac:(simpl; lia)). simpl in H.
      rewrite <- app_assoc. exact H.
Qed.

Lemma send_all_fault (o : self) (E : env) (cmds : list str) (n : nat)
  (e : exn) (t : trace) :
  (n < List.length cmds)%nat ->
  faults_at E t o cmds n e ->
  send_all o cmds E t
  = (Raise e, t ++ sent o (firstn n cmds)
                ++ [EvWrite (dev o) OUT_ENDPOINT (nth n cmds [] ++ CR)]).
Proof.
  revert n t. induction cmds as [|c cmds IH]; intros n t Hn [Hok Hbad].
  - simpl in Hn. lia.
  - simpl send_all. unfold bind. rewrite send_run. destruct n as [|n].
    + simpl in Hbad. rewrite app_nil_r in Hbad. rewrite Hbad. reflexivity.
    + pose proof (Hok 0%nat ltac:(lia)) as H0. simpl in H0.
      rewrite app_nil_r in H0. rewrite H0.
      rewrite (IH n).
      * simpl. rewrite <- !app_assoc. reflexivity.
      * simpl in Hn. lia.
      * split.
        -- intros k Hk. specialize (Hok (S k) ltac:(lia)). simpl in Hok.
           rewrite <- app_assoc. exact Hok.
        -- simpl in Hbad. rewrite <- app_assoc. exact Hbad.
Qed.

(** C7.  [configure_waveform] has no rollback: when the first [n] of
    its four writes succeed and the next one faults with [e], the run
    raises [e] itself; the first [n] commands were sent in full (each
    with its pacing delay), the faulting command's write was the last
    effect, and no later command was attempted.  The case [n = 1] is a
    fault during the second send, after the Function command. *)
Theorem configure_waveform_no_rollback
  (o : self) (shape freq ampl offset : PyValue.value) (E : env) (t : trace)
  (n : nat) (e : exn) :
  let cmds := waveform_commands shape freq ampl offset in
  (n < 4)%nat ->
  faults_at E t o cmds n e ->
  configure_waveform o shape freq ampl offset E t
    = (Raise e, t ++ sent o (firstn n cmds)
                  ++ [EvWrite (dev o) OUT_ENDPOINT (nth n cmds [] ++ CR)])
  /\ payloads (snd (configure_waveform o shape freq ampl offset E t))
     = payloads t ++ map (fun c => c ++ CR) (firstn (S n) cmds).
Proof.
  intros cmds Hn Hf.
  assert (R : configure_waveform o shape freq ampl offset E t
    = (Raise e, t ++ sent o (firstn n cmds)
                  ++ [EvWrite (dev o) OUT_ENDPOINT (nth n cmds [] ++ CR)])).
  { rewrite configure_waveform_send_all. apply send_all_fault; assumption. }
  split; [exact R|].
  rewrite R. simpl snd. rewrite !payloads_app, payloads_sent. f_equal.
  assert (C : (n = 0 \/ n = 1 \/ n = 2 \/ n = 3)%nat) by lia.
  destruct C as [->|[->|[->| ->]]]; reflexivity.
Qed.

Lemma configure_waveform_no_rollback_witness :
  configure_waveform Sim.gen default_shape default_freq default_ampl
    default_offset (Sim.failing_write 1) []
  = (Raise (USBError "Input/Output Error"),
     [EvWrite Sim.ag051 3 (lit ":FUNCtion SINE" ++ CR);
      EvSleep (PyFloat.decimal 5 2);
      EvWrite Sim.ag051 3 (lit ":FUNCtion:FREQuency 1000" ++ CR)]).
Proof.
  apply (proj1 (configure_waveform_no_rollback Sim.gen default_shape
                  default_freq default_ampl default_offset
                  (Sim.failing_write 1) [] 1 (USBError "Input/Output Error")
                  ltac:(lia)
                  ltac:(split;
                        [ intros k Hk; assert (k = 0)%nat as -> by lia;
                          reflexivity
                        | reflexivity ]))).
Defined.

(* ================================================================== *)
(** * Bytes, and the bit operations of the codec as arithmetic *)
(* ================================================================== *)

Import Utf8.

(** [lia] once divisions and remainders by constants are eliminated. *)
Ltac dlia := Z.div_mod_to_equations; lia.

Section Bytes.

Lemma byte_val_range (b : byte) : is_byte (byte_val b).
Proof.
  unfold is_byte, byte_val. pose proof (Byte.to_N_bounded b). lia.
Qed.

Lemma byte_of_val (b : byte) : byte_of_Z (byte_val b) = b.
Proof.
  unfold byte_of_Z. pose proof (byte_val_range b) as R.
  rewrite Z.mod_small by exact R. unfold byte_val. rewrite N2Z.id.
  rewrite Byte.of_to_N. reflexivity.
Qed.

Lemma byte_val_of (z : Z) : 0 <= z < 256 -> byte_val (byte_of_Z z) = z.
Proof.
  intros R. unfold byte_of_Z. rewrite Z.mod_small by exact R.
  destruct (Byte.of_N (Z.to_N z)) as [b|] eqn:E.
  - apply Byte.to_of_N in E. unfold byte_val. rewrite E. lia.
  - apply Byte.of_N_None_iff in E. lia.
Qed.

Lemma byte_val_inj (a b : byte) : byte_val a = byte_val b -> a = b.
Proof.
  intros H. rewrite <- (byte_of_val a), <- (byte_of_val b), H. reflexivity.
Qed.

Lemma Forall_is_byte (bs : bytes) : Forall is_byte (map byte_val bs).
Proof.
  induction bs; constructor; [apply byte_val_range | assumption].
Qed.

End Bytes.

(** A bit-wise or with a value that fits below the bits set is a sum. *)
Lemma lor_low (a x n : Z) :
  0 <= n -> Z.land a (Z.ones n) = 0 -> 0 <= x < 2 ^ n -> Z.lor a x = a + x.
Proof.
  intros Hn Ha Hx.
  assert (D : Z.land a x = 0).
  { rewrite <- (Z.mod_small x (2 ^ n)) by exact Hx.
    rewrite <- Z.land_ones by exact Hn.
    rewrite (Z.land_comm x), Z.land_assoc, Ha. apply Z.land_0_l. }
  rewrite <- Z.lxor_lor by exact D. symmetry.
  apply Z.add_nocarry_lxor. exact D.
Qed.

Section Shifts.
Variable c : Z.

Lemma shr6 : Z.shiftr c 6 = c / 64.
Proof. rewrite Z.shiftr_div_pow2 by lia. reflexivity. Qed.

Lemma shr12 : Z.shiftr c 12 = c / 4096.
Proof. rewrite Z.shiftr_div_pow2 by lia. reflexivity. Qed.

Lemma shr18 : Z.shiftr c 18 = c / 262144.
Proof. rewrite Z.shiftr_div_pow2 by lia. reflexivity. Qed.

Lemma shl6 : Z.shiftl c 6 = c * 64.
Proof. rewrite Z.shiftl_mul_pow2 by lia. reflexivity. Qed.

Lemma shl12 : Z.shiftl c 12 = c * 4096.
Proof. rewrite Z.shiftl_mul_pow2 by lia. reflexivity. Qed.

Lemma shl18 : Z.shiftl c 18 = c * 262144.
Proof. rewrite Z.shiftl_mul_pow2 by lia. reflexivity. Qed.

(** The lead bytes and the continuation byte written by the encoder. *)
Lemma lead2 : 0 <= c < 0x800 -> Z.lor 0xC0 (Z.shiftr c 6) = 192 + c / 64.
Proof.
  intros H. rewrite shr6. apply (lor_low 192 (c / 64) 5).
  - lia.
  - reflexivity.
  - change (2 ^ 5) with 32. dlia.
Qed.

Lemma lead3 :
  0 <= c < 0x10000 -> Z.lor 0xE0 (Z.shiftr c 12) = 224 + c / 4096.
Proof.
  intros H. rewrite shr12. apply (lor_low 224 (c / 4096) 4).
  - lia.
  - reflexivity.
  - change (2 ^ 4) with 16. dlia.
Qed.

Lemma lead4 :
  0 <= c < 0x200000 -> Z.lor 0xF0 (Z.shiftr c 18) = 240 + c / 262144.
Proof.
  intros H. rewrite shr18. apply (lor_low 240 (c / 262144) 3).
  - lia.
  - reflexivity.
  - change (2 ^ 3) with 8. dlia.
Qed.

Lemma cont : Z.lor 0x80 (Z.land c 0x3F) = 128 + c mod 64.
Proof.
  change 0x3F with (Z.ones 6). rewrite Z.land_ones by lia.
  change (2 ^ 6) with 64. apply (lor_low 128 (c mod 64) 6).
  - lia.
  - reflexivity.
  - change (2 ^ 6) with 64. dlia.
Qed.

End Shifts.

Create Rewrite HintDb shifts.
#[local] Hint Rewrite shl6 shl12 shl18 shr6 shr12 shr18 : shifts.

(* ================================================================== *)
(** * UTF-8: the decoder against the encoder *)
(* ================================================================== *)

(** Settle the comparisons of the goal that arithmetic decides. *)
Ltac decide_tests :=
  repeat match goal with
  | |- context [?a <? ?b] =>
    first [ replace (a <? b) with true by (symmetry; apply Z.ltb_lt; dlia)
          | replace (a <? b) with false by (symmetry; apply Z.ltb_ge; dlia) ]
  | |- context [?a <=? ?b] =>
    first [ replace (a <=? b) with true by (symmetry; apply Z.leb_le; dlia)
          | replace (a <=? b) with false by (symmetry; apply Z.leb_gt; dlia) ]
  | |- context [?a =? ?b] =>
    first [ replace (a =? b) with true by (symmetry; apply Z.eqb_eq; dlia)
          | replace (a =? b) with false by (symmetry; apply Z.eqb_neq; dlia) ]
  end.

(** Follow the decoder through a sequence whose bytes are known by
    their ranges; the test on the second byte is split by cases. *)
Ltac walk :=
  repeat (decide_tests; cbn [negb andb orb];
          try match goal with
              | |- context [if ?a <? ?b then _ =? _ else _] =>
                destruct (Z.ltb_spec a b)
              end).

(** Boolean tests among the hypotheses, as propositions. *)
Ltac prop_tests :=
  unfold is_continuation, is_byte in *;
  repeat match goal with
  | H : negb _ = false |- _ => apply negb_false_iff in H
  | H : _ || _ = false |- _ => apply orb_false_iff in H; destruct H
  | H : _ && _ = true |- _ => apply andb_true_iff in H; destruct H
  | H : (_ <? _) = true |- _ => apply Z.ltb_lt in H
  | H : (_ <? _) = false |- _ => apply Z.ltb_ge in H
  | H : (_ <=? _) = true |- _ => apply Z.leb_le in H
  | H : (_ <=? _) = false |- _ => apply Z.leb_gt in H
  | H : (_ =? _) = true |- _ => apply Z.eqb_eq in H
  | H : (_ =? _) = false |- _ => apply Z.eqb_neq in H
  end.

Lemma some_eq {A : Type} (a b : A) : Some a = Some b -> a = b.
Proof. congruence. Qed.

Section DecodeEncoded.
Variables (c : Z) (rest : list Z).

Lemma decode_encoded1 :
  0 <= c < 0x80 ->
  decode_ignore (map byte_val [byte_of_Z c] ++ rest) = c :: decode_ignore rest.
Proof.
  intros R. cbn [map]. rewrite byte_val_of by lia.
  cbn [app decode_ignore]. decide_tests. reflexivity.
Qed.

Lemma decode_encoded2 :
  0x80 <= c < 0x800 ->
  decode_ignore
    (map byte_val
       [byte_of_Z (Z.lor 0xC0 (Z.shiftr c 6));
        byte_of_Z (Z.lor 0x80 (Z.land c 0x3F))] ++ rest)
  = c :: decode_ignore rest.
Proof.
  intros R. rewrite lead2, cont by lia. cbn [map].
  rewrite !byte_val_of by dlia.
  cbn [app decode_ignore]. unfold is_continuation.
  autorewrite with shifts. walk. f_equal. dlia.
Qed.

Lemma decode_encoded3 :
  0x800 <= c < 0x10000 -> ~ (0xD800 <= c <= 0xDFFF) ->
  decode_ignore
    (map byte_val
       [byte_of_Z (Z.lor 0xE0 (Z.shiftr c 12));
        byte_of_Z (Z.lor 0x80 (Z.land (Z.shiftr c 6) 0x3F));
        byte_of_Z (Z.lor 0x80 (Z.land c 0x3F))] ++ rest)
  = c :: decode_ignore rest.
Proof.
  intros R S. rewrite lead3, shr6, !cont by lia. cbn [map].
  rewrite !byte_val_of by dlia.
  cbn [app decode_ignore]. unfold is_continuation.
  autorewrite with shifts. walk; f_equal; dlia.
Qed.

Lemma decode_encoded4 :
  0x10000 <= c <= 0x10FFFF ->
  decode_ignore
    (map byte_val
       [byte_of_Z (Z.lor 0xF0 (Z.shiftr c 18));
        byte_of_Z (Z.lor 0x80 (Z.land (Z.shiftr c 12) 0x3F));
        byte_of_Z (Z.lor 0x80 (Z.land (Z.shiftr c 6) 0x3F));
        byte_of_Z (Z.lor 0x80 (Z.land c 0x3F))] ++ rest)
  = c :: decode_ignore rest.
Proof.
  intros R. rewrite lead4, shr6, shr12, !cont by lia. cbn [map].
  rewrite !byte_val_of by dlia.
  cbn [app decode_ignore]. unfold is_continuation.
  autorewrite with shifts. walk; f_equal; dlia.
Qed.

(** What the encoder writes for one code point, the decoder reads back
    as that code point, and goes on with what follows. *)
Lemma decode_encoded (bs : bytes) :
  encode_codepoint c = Some bs ->
  decode_ignore (map byte_val bs ++ rest) = c :: decode_ignore rest.
Proof.
  unfold encode_codepoint.
  destruct (Z.ltb_spec c 0); [discriminate|].
  destruct (Z.ltb_spec c 0x80).
  { intros Hbs. apply some_eq in Hbs. subst bs. apply decode_encoded1. lia. }
  destruct (Z.ltb_spec c 0x800).
  { intros Hbs. apply some_eq in Hbs. subst bs. apply decode_encoded2. lia. }
  destruct (Z.leb_spec 0xD800 c); destruct (Z.leb_spec c 0xDFFF);
    cbn [andb]; try discriminate; try lia.
  all: destruct (Z.ltb_spec c 0x10000).
  all: try (intros Hbs; apply some_eq in Hbs; subst bs;
            apply decode_encoded3; lia).
  all: destruct (Z.leb_spec c 0x10FFFF); try discriminate; try lia.
  intros Hbs. apply some_eq in Hbs. subst bs. apply decode_encoded4. lia.
Qed.

End DecodeEncoded.

Section EncodeDecoded.
Variables ch ch2 ch3 ch4 : Z.

(** What the decoder accepts as a sequence of two, three or four
    bytes, the encoder writes as these bytes. *)
Lemma encode_decoded2 :
  0xC2 <= ch < 0xE0 -> is_continuation ch2 = true ->
  encode_codepoint (Z.shiftl ch 6 + ch2 - (Z.shiftl 0xC0 6 + 0x80))
  = Some [byte_of_Z ch; byte_of_Z ch2].
Proof.
  intros R C. prop_tests. autorewrite with shifts.
  unfold encode_codepoint. decide_tests.
  rewrite lead2, cont by lia. repeat f_equal; dlia.
Qed.

Lemma encode_decoded3 :
  0xE0 <= ch < 0xF0 -> is_continuation ch2 = true ->
  (if ch2 <? 0xA0 then ch =? 0xE0 else ch =? 0xED) = false ->
  is_continuation ch3 = true ->
  encode_codepoint (Z.shiftl ch 12 + Z.shiftl ch2 6 + ch3
                    - (Z.shiftl 0xE0 12 + Z.shiftl 0x80 6 + 0x80))
  = Some [byte_of_Z ch; byte_of_Z ch2; byte_of_Z ch3].
Proof.
  intros R C2 S C3. autorewrite with shifts.
  destruct (Z.ltb_spec ch2 0xA0); prop_tests.
  all: unfold encode_codepoint; decide_tests;
    match goal with
    | |- context [(55296 <=? ?c) && _] => destruct (Z.leb_spec 55296 c)
    end; cbn [andb]; decide_tests;
    rewrite lead3, shr6, !cont by lia; repeat f_equal; dlia.
Qed.

Lemma encode_decoded4 :
  0xF0 <= ch < 0xF5 -> is_continuation ch2 = true ->
  (if ch2 <? 0x90 then ch =? 0xF0 else ch =? 0xF4) = false ->
  is_continuation ch3 = true -> is_continuation ch4 = true ->
  encode_codepoint (Z.shiftl ch 18 + Z.shiftl ch2 12 + Z.shiftl ch3 6 + ch4
                    - (Z.shiftl 0xF0 18 + Z.shiftl 0x80 12
                       + Z.shiftl 0x80 6 + 0x80))
  = Some [byte_of_Z ch; byte_of_Z ch2; byte_of_Z ch3; byte_of_Z ch4].
Proof.
  intros R C2 S C3 C4. autorewrite with shifts.
  destruct (Z.ltb_spec ch2 0x90); prop_tests.
  all: unfold encode_codepoint; decide_tests; cbn [andb]; decide_tests;
    rewrite lead4, shr6, shr12, !cont by lia; repeat f_equal; dlia.
Qed.

End EncodeDecoded.

Section Subsequences.
Context {A : Type}.

Lemma subseq_nil_l (l : list A) : subseq [] l.
Proof. induction l; constructor; assumption. Qed.

Lemma subseq_length (k l : list A) :
  subseq k l -> (List.length k <= List.length l)%nat.
Proof. induction 1; simpl; lia. Qed.

End Subsequences.

Lemma subseq_map_byte_val (k l : bytes) :
  subseq (map byte_val k) (map byte_val l) -> subseq k l.
Proof.
  revert k. induction l as [|b l IH]; intros k H.
  - destruct k; [constructor | inversion H].
  - inversion H as [|x k' l' H' E1 E2|x k' l' H' E1 E2]; subst.
    + destruct k as [|a k]; [discriminate|]. simpl in E1.
      injection E1 as Ea Ek. subst k'. apply byte_val_inj in Ea. subst a.
      constructor. apply IH. exact H'.
    + constructor. apply IH. exact H'.
Qed.

Ltac tails :=
  repeat match goal with
  | H : Forall is_byte (_ :: _) |- _ => inversion H; clear H; subst
  end.

Ltac split_or :=
  repeat match goal with
  | H : _ || _ = false |- _ => apply orb_false_iff in H; destruct H
  end;
  repeat match goal with
  | H : negb _ = false |- _ => apply negb_false_iff in H
  end.

Ltac to_props :=
  unfold is_byte in *;
  repeat match goal with
  | H : (_ <? _) = true |- _ => apply Z.ltb_lt in H
  | H : (_ <? _) = false |- _ => apply Z.ltb_ge in H
  end.

Ltac bounds := to_props; lia.

Ltac second_byte :=
  match goal with
  | H : (?c <? ?n) = _ |- (if ?c <? ?n then _ else _) = false =>
    rewrite H; assumption
  end.

(** The bytes of an accepted sequence are kept, and the subsequence
    goes on in the rest. *)
Tactic Notation "keep" integer(n) "then" hyp(S) :=
  eexists; split; [reflexivity|]; cbn [map app];
  rewrite !byte_val_of by bounds; do n apply subseq_keep; exact S.

(** The decoder only removes bytes: what it returns encodes to a
    subsequence of its input. *)
Lemma decode_ignore_kept (l : list Z) :
  Forall is_byte l ->
  exists kept, encode (decode_ignore l) = Some kept
               /\ subseq (map byte_val kept) l.
Proof.
  functional induction (decode_ignore l); intros F; tails;
    try (specialize (IHs ltac:(first [assumption | constructor; assumption]));
         destruct IHs as [kept [E S]]).
  all: try (exists []; split; [reflexivity | apply subseq_nil_l]).
  all: try (exists kept; split;
            [ exact E
            | first [ apply subseq_drop; exact S
                    | do 2 apply subseq_drop; exact S
                    | do 3 apply subseq_drop; exact S ] ]).
  all: split_or; cbn [encode].
  - assert (C : encode_codepoint ch = Some [byte_of_Z ch]).
    { to_props. unfold encode_codepoint. decide_tests. reflexivity. }
    rewrite C, E. keep 1 then S.
  - rewrite encode_decoded2, E by first [assumption | bounds].
    keep 2 then S.
  - rewrite encode_decoded3, E by first [assumption | second_byte | bounds].
    keep 3 then S.
  - rewrite encode_decoded3, E by first [assumption | second_byte | bounds].
    keep 3 then S.
  - rewrite encode_decoded4, E by first [assumption | second_byte | bounds].
    keep 4 then S.
  - rewrite encode_decoded4, E by first [assumption | second_byte | bounds].
    keep 4 then S.
Qed.

(** Every character decoded uses up at least one byte. *)
Lemma decode_ignore_length (l : list Z) :
  (List.length (decode_ignore l) <= List.length l)%nat.
Proof.
  functional induction (decode_ignore l); simpl List.length in *; lia.
Qed.

(** A well-formed prefix is decoded exactly, whatever follows it. *)
Lemma decode_ignore_encoded (s : str) (bs : bytes) (rest : list Z) :
  encode s = Some bs ->
  decode_ignore (map byte_val bs ++ rest) = s ++ decode_ignore rest.
Proof.
  revert bs. induction s as [|c s IH]; intros bs H; simpl in H.
  - apply some_eq in H. subst bs. reflexivity.
  - destruct (encode_codepoint c) as [b|] eqn:Ec; [|discriminate].
    destruct (encode s) as [bs'|]; [|discriminate].
    apply some_eq in H. subst bs.
    rewrite map_app, <- app_assoc, (decode_encoded c _ b) by exact Ec.
    rewrite (IH bs' eq_refl). reflexivity.
Qed.

(** A byte that can start no sequence is skipped. *)
Lemma decode_ignore_invalid_start (b : byte) (rest : list Z) :
  invalid_start b = true ->
  decode_ignore (byte_val b :: rest) = decode_ignore rest.
Proof.
  unfold invalid_start. pose proof (byte_val_range b) as R. intros H.
  cbn [decode_ignore]. unfold is_byte in R.
  apply orb_true_iff in H. destruct H as [H|H].
  - apply andb_true_iff in H. destruct H as [H1 H2].
    apply Z.leb_le in H1. apply Z.ltb_lt in H2. decide_tests. reflexivity.
  - apply Z.leb_le in H. decide_tests. reflexivity.
Qed.

(* ================================================================== *)
(** * [strip] *)
(* ================================================================== *)

Lemma drop_while_split {A : Type} (p : A -> bool) (l : list A) :
  exists pre, l = pre ++ drop_while p l /\ forallb p pre = true.
Proof.
  induction l as [|x l [pre [E F]]].
  - exists []. split; reflexivity.
  - simpl. destruct (p x) eqn:Px.
    + exists (x :: pre). simpl. rewrite Px, F, <- E. split; reflexivity.
    + exists []. split; reflexivity.
Qed.

Lemma drop_while_head {A : Type} (p : A -> bool) (l : list A) x l' :
  drop_while p l = x :: l' -> p x = false.
Proof.
  induction l as [|y l IH]; simpl; [discriminate|].
  destruct (p y) eqn:Py; [exact IH|].
  intros H. injection H as -> _. exact Py.
Qed.

Lemma forallb_rev {A : Type} (p : A -> bool) (l : list A) :
  forallb p l = true -> forallb p (rev l) = true.
Proof.
  rewrite !forallb_forall. intros H x Hx. apply H, in_rev. exact Hx.
Qed.

(** [strip] removes a run of whitespace at each end and nothing else,
    and what is left neither starts nor ends with whitespace. *)
Lemma strip_spec (s : str) :
  (exists l r, s = l ++ strip s ++ r
               /\ forallb isspace l = true /\ forallb isspace r = true)
  /\ (forall c rest, strip s = c :: rest -> isspace c = false)
  /\ (forall c rest, rev (strip s) = c :: rest -> isspace c = false).
Proof.
  unfold strip, rstrip, lstrip.
  destruct (drop_while_split isspace s) as [l [El Fl]].
  set (m := drop_while isspace s) in *.
  destruct (drop_while_split isspace (rev m)) as [r0 [Er Fr]].
  set (x := drop_while isspace (rev m)) in *.
  assert (Em : m = rev x ++ rev r0).
  { rewrite <- rev_app_distr, <- Er, rev_involutive. reflexivity. }
  split; [|split].
  - exists l, (rev r0). rewrite <- Em. repeat split.
    + exact El.
    + exact Fl.
    + apply forallb_rev. exact Fr.
  - intros c rest H. rewrite H in Em. simpl in Em.
    apply (drop_while_head isspace s c (rest ++ rev r0)). exact Em.
  - intros c rest H. rewrite rev_involutive in H.
    apply (drop_while_head isspace (rev m) c rest). exact H.
Qed.

Lemma strip_length (s : str) : (List.length (strip s) <= List.length s)%nat.
Proof.
  destruct (strip_spec s) as [[l [r [E _]]] _].
  rewrite E at 2. rewrite !length_app. lia.
Qed.

(* ================================================================== *)
(** * Query: decoding and trimming of the response *)
(* ================================================================== *)

Lemma decode_kept (bs : bytes) :
  exists kept, encode (decode bs) = Some kept /\ subseq kept bs.
Proof.
  destruct (decode_ignore_kept (map byte_val bs) (Forall_is_byte bs))
    as [kept [E S]].
  exists kept. split; [exact E | apply subseq_map_byte_val; exact S].
Qed.

Lemma decode_length (bs : bytes) :
  (List.length (decode bs) <= List.length bs)%nat.
Proof.
  unfold decode. pose proof (decode_ignore_length (map byte_val bs)) as H.
  rewrite length_map in H. exact H.
Qed.

(** C5.  When the write and the read succeed, [query] returns, as an
    ordinary result, the bytes it read decoded as UTF-8 and stripped.
    Decoding only removes bytes and never fails: the text encodes back
    to a subsequence of the bytes read, so nothing is put in the place
    of what was invalid; a well-formed run of bytes is decoded to the
    text it encodes whatever follows it, and a byte that can start no
    sequence is skipped.  Stripping removes a run of whitespace at each
    end and leaves a text that neither starts nor ends with whitespace.
    The identity line [b"OWON,AG051,12345,1.0\r\n"] gives
    ["OWON,AG051,12345,1.0"]. *)
Theorem query_decodes_utf8_and_strips
  (o : self) (cmd : str) (E : env) (t : trace) (data : bytes) :
  let w := EvWrite (dev o) OUT_ENDPOINT (cmd ++ CR) in
  let got := firstn 4096 data in
  let text := decode got in
  on_write E t (dev o) OUT_ENDPOINT (cmd ++ CR) = None ->
  on_read E (t ++ [w]) (dev o) IN_ENDPOINT 4096 (timeout o) = Offer data ->
  fst (query o cmd E t) = Ok (strip text)
  /\ (exists kept, encode text = Some kept /\ subseq kept got)
  /\ (forall s bs rest,
        encode s = Some bs -> decode (bs ++ rest) = s ++ decode rest)
  /\ (forall b rest,
        invalid_start b = true -> decode (b :: rest) = decode rest)
  /\ (exists l r, text = l ++ strip text ++ r
                  /\ forallb isspace l = true /\ forallb isspace r = true)
  /\ (forall c rest, strip text = c :: rest -> isspace c = false)
  /\ (forall c rest, rev (strip text) = c :: rest -> isspace c = false)
  /\ strip (decode Sim.idn_line) = lit "OWON,AG051,12345,1.0".
Proof.
  intros w got text Hw Hr.
  pose proof (query_run o cmd E t) as Q. cbv zeta in Q. fold w in Q.
  rewrite Hw, Hr in Q.
  destruct (strip_spec text) as [S1 [S2 S3]].
  split; [rewrite Q; reflexivity|].
  split; [apply decode_kept|].
  split.
  { intros s bs rest H. unfold decode. rewrite map_app.
    apply decode_ignore_encoded. exact H. }
  split.
  { intros b rest H. unfold decode. cbn [map].
    apply decode_ignore_invalid_start. exact H. }
  split; [exact S1|]. split; [exact S2|]. split; [exact S3|].
  vm_compute. reflexivity.
Qed.

Lemma query_decodes_utf8_and_strips_witness :
  fst (query Sim.gen (lit "*IDN?") Sim.answering [])
  = Ok (lit "OWON,AG051,12345,1.0").
Proof.
  apply (proj1 (query_decodes_utf8_and_strips
                  Sim.gen (lit "*IDN?") Sim.answering [] Sim.idn_line
                  eq_refl eq_refl)).
Defined.

(* ================================================================== *)
(** * Query: the size of the read *)
(* ================================================================== *)

Lemma init_run_reads (vid pid tmo : Z) (E : env) (t : trace) :
  exists new, snd (__init__ vid pid tmo E t) = t ++ new
              /\ Forall (eq 4096) (read_sizes new).
Proof.
  unfold __init__, bind, usb_find, raise, set_configuration, print_line, ret.
  destruct (find (matches vid pid) (bus E)) as [d|].
  2:{ eexists. split; [reflexivity|]. constructor. }
  destruct (on_set_configuration E _ d) as [e|].
  { exists [EvFind vid pid; EvSetConfiguration d].
    rewrite <- app_assoc. split; [reflexivity|]. constructor. }
  match goal with |- context [query ?o ?c E ?t'] =>
    pose proof (query_run o c E t') as Q; cbv zeta in Q; rewrite Q
  end.
  cbn [dev timeout].
  destruct (on_write E _ d OUT_ENDPOINT _) as [e|].
  { eexists. rewrite <- !app_assoc. split; [reflexivity|]. constructor. }
  destruct (on_read E _ d IN_ENDPOINT 4096 tmo) as [data|e];
    [|destruct (is_USBTimeoutError e)];
    eexists; rewrite <- !app_assoc; (split; [reflexivity|]);
    repeat constructor.
Qed.

(** C9.  Every read a [query] asks for has the size 4096, whatever the
    attributes of the instance, and so has the read made during
    construction whatever the identifiers and the timeout given to it:
    the size is no parameter of the driver.  The result is computed from
    at most the first 4096 bytes the device offers and is at most 4096
    characters long; of a longer response the rest is not read by this
    call. *)
Theorem query_reads_at_most_4096
  (o : self) (cmd : str) (E : env) (t : trace) :
  let w := EvWrite (dev o) OUT_ENDPOINT (cmd ++ CR) in
  (exists new, snd (query o cmd E t) = t ++ new
               /\ Forall (eq 4096) (read_sizes new)
               /\ (List.length (read_sizes new) <= 1)%nat)
  /\ (forall vid pid tmo E' t',
        exists new, snd (__init__ vid pid tmo E' t') = t' ++ new
                    /\ Forall (eq 4096) (read_sizes new))
  /\ (forall data,
        on_write E t (dev o) OUT_ENDPOINT (cmd ++ CR) = None ->
        on_read E (t ++ [w]) (dev o) IN_ENDPOINT 4096 (timeout o)
          = Offer data ->
        exists got rest s,
          data = got ++ rest
          /\ List.length got = Nat.min 4096 (List.length data)
          /\ fst (query o cmd E t) = Ok s
          /\ s = strip (decode got)
          /\ (List.length s <= 4096)%nat
          /\ ((4096 < List.length data)%nat -> rest <> [])).
Proof.
  intros w. pose proof (query_run o cmd E t) as Q. cbv zeta in Q. fold w in Q.
  split; [|split].
  - rewrite Q.
    destruct (on_write E t (dev o) OUT_ENDPOINT (cmd ++ CR)) as [e|].
    + exists [w]. repeat split; simpl; [constructor | lia].
    + destruct (on_read E (t ++ [w]) (dev o) IN_ENDPOINT 4096 (timeout o))
        as [data|e]; [|destruct (is_USBTimeoutError e)];
        eexists; (split; [reflexivity|]); simpl;
        (split; [repeat constructor | lia]).
  - intros vid pid tmo E' t'. apply init_run_reads.
  - intros data Hw Hr. rewrite Hw, Hr in Q.
    exists (firstn 4096 data), (skipn 4096 data),
      (strip (decode (firstn 4096 data))).
    split; [symmetry; apply firstn_skipn|].
    split; [apply length_firstn|].
    split; [rewrite Q; reflexivity|].
    split; [reflexivity|].
    split.
    + pose proof (strip_length (decode (firstn 4096 data))).
      pose proof (decode_length (firstn 4096 data)).
      pose proof (length_firstn 4096 data). lia.
    + intros L N. pose proof (length_skipn 4096 data) as K.
      rewrite N in K. simpl in K. lia.
Qed.

Lemma query_reads_at_most_4096_witness :
  exists got rest s,
    repeat x41 5000 = got ++ rest
    /\ List.length got = Nat.min 4096 (List.length (repeat x41 5000))
    /\ fst (query Sim.gen (lit "*IDN?") (Sim.flooding 5000) []) = Ok s
    /\ s = strip (decode got)
    /\ (List.length s <= 4096)%nat
    /\ ((4096 < List.length (repeat x41 5000))%nat -> rest <> []).
Proof.
  apply (proj2 (proj2 (query_reads_at_most_4096
                  Sim.gen (lit "*IDN?") (Sim.flooding 5000) []))
           (repeat x41 5000) eq_refl eq_refl).
Defined.

(* ================================================================== *)
(** * Waveform configuration: the four commands and their text *)
(* ================================================================== *)

Lemma uint_str_digits (u : Decimal.uint) : forallb is_digit (uint_str u) = true.
Proof. induction u; simpl; auto. Qed.

Lemma uint_str_nonempty (u : Decimal.uint) :
  u <> Decimal.Nil -> uint_str u <> [].
Proof. destruct u; simpl; congruence. Qed.

Lemma split_at_point_digits (s : str) :
  forallb is_digit s = true -> split_at_point s = (s, None).
Proof.
  induction s as [|c s IH]; simpl; [reflexivity|].
  intros H. apply andb_prop in H. destruct H as [Hc Hs].
  rewrite (IH Hs).
  destruct (Z.eqb_spec c 46) as [->|]; [discriminate | reflexivity].
Qed.

Lemma digits_plain (s : str) :
  s <> [] -> forallb is_digit s = true -> plain_decimal s = true.
Proof.
  intros N D. unfold plain_decimal.
  destruct s as [|c s]; [congruence|].
  assert (Hc : (c =? 45) = false).
  { simpl in D. apply andb_prop in D. destruct D as [D _].
    unfold is_digit in D. apply andb_prop in D. destruct D as [D1 D2].
    apply Z.leb_le in D1. apply Z.eqb_neq. lia. }
  rewrite Hc, (split_at_point_digits _ D). unfold all_digits.
  rewrite D. reflexivity.
Qed.

(** [str(n)] of an [int] is plain decimal text. *)
Lemma int_str_plain (n : Z) : plain_decimal (int_str n) = true.
Proof.
  destruct n as [|p|p].
  - reflexivity.
  - apply digits_plain;
      [ apply uint_str_nonempty, Unsigned.to_uint_nonnil
      | apply uint_str_digits ].
  - unfold int_str, plain_decimal. rewrite Z.eqb_refl.
    rewrite (split_at_point_digits _ (uint_str_digits _)). unfold all_digits.
    rewrite uint_str_digits.
    pose proof (uint_str_nonempty _ (Unsigned.to_uint_nonnil p)) as N.
    destruct (uint_str (Pos.to_uint p)); [congruence | reflexivity].
Qed.

Lemma split_at_point_app (s : str) :
  s = fst (split_at_point s)
        ++ match snd (split_at_point s) with
           | None => []
           | Some f => 46 :: f
           end.
Proof.
  induction s as [|c s IH]; simpl; [reflexivity|].
  destruct (Z.eqb_spec c 46) as [->|]; [reflexivity|].
  destruct (split_at_point s) as [a b]. simpl in *. rewrite <- IH. reflexivity.
Qed.

Lemma all_digits_no_e (s : str) : all_digits s = true -> ~ In 101 s.
Proof.
  unfold all_digits. intros H I. apply andb_prop in H. destruct H as [_ H].
  rewrite forallb_forall in H. specialize (H 101 I). discriminate.
Qed.

(** Plain decimal text has no letter [e]. *)
Lemma plain_decimal_no_e (s : str) : plain_decimal s = true -> ~ In 101 s.
Proof.
  unfold plain_decimal. intros H I.
  set (body := match s with
               | c :: s' => if c =? 45 then s' else s
               | [] => []
               end) in *.
  assert (Ib : In 101 body).
  { subst body. destruct s as [|c s]; [exact I|].
    destruct (Z.eqb_spec c 45) as [->|]; [|exact I].
    destruct I as [I|I]; [discriminate | exact I]. }
  rewrite (split_at_point_app body) in Ib.
  destruct (split_at_point body) as [a [f|]]; simpl in *.
  - apply andb_prop in H. destruct H as [Ha Hf].
    apply in_app_or in Ib. destruct Ib as [Ib|[Ib|Ib]].
    + exact (all_digits_no_e a Ha Ib).
    + discriminate.
    + exact (all_digits_no_e f Hf Ib).
  - rewrite app_nil_r in Ib. exact (all_digits_no_e a H Ib).
Qed.

(** A float whose decimal point position is at most -4 or above 16 is
    written with an exponent. *)
Lemma repr_exponent (x : PyFloat.float) :
  PyFloat.uses_exponent x = true -> In 101 (PyFloat.repr x).
Proof.
  destruct x as [s|s| |s m e]; simpl; try discriminate.
  destruct (PyFloat.dtoa m e) as [digits decpt]. simpl snd. intros H.
  unfold PyFloat.format_float_short. cbv zeta. rewrite H.
  apply in_or_app. right. left. reflexivity.
Qed.

(* ================================================================== *)
(** * [repr] of a float: termination of the digit loop, plain text *)
(* ================================================================== *)

Import PyFloat.

Lemma digits_fuel_enough (s mlo : Z) :
  0 < s -> 0 < mlo ->
  exists f, digits_fuel s mlo = S f /\ s <= mlo * 10 ^ Z.of_nat f.
Proof.
  intros Hs Hm. unfold digits_fuel. eexists. split; [reflexivity|].
  set (q := s / mlo + 1).
  assert (Hq : 1 <= q) by (pose proof (Z.div_pos s mlo); unfold q; lia).
  rewrite Z2Nat.id by apply Z.log2_up_nonneg.
  assert (H2 : q <= 2 ^ Z.log2_up q).
  { destruct (Z.eq_dec q 1) as [->|N]; [reflexivity|].
    apply Z.log2_up_spec. lia. }
  assert (H10 : 2 ^ Z.log2_up q <= 10 ^ Z.log2_up q).
  { apply Z.pow_le_mono_l. lia. }
  assert (Hd : s < mlo * q).
  { unfold q. pose proof (Z.mod_pos_bound s mlo Hm).
    pose proof (Z.div_mod s mlo ltac:(lia)). nia. }
  nia.
Qed.

Lemma dtoa_digits_step (fuel : nat) (even : bool) (b s mlo mhi : Z)
  (acc : list Z) :
  dtoa_digits (S fuel) even b s mlo mhi acc =
    let dig := b / s in
    let b := b mod s in
    let j := b ?= mlo in
    let j1 := if s - mhi <? 0 then Gt else b ?= s - mhi in
    if is_Eq j1 && even then
      if dig =? 9 then Roundoff (9 :: acc)
      else Ret ((if is_Gt j then dig + 1 else dig) :: acc)
    else if is_Lt j || (is_Eq j && even) then
      if b =? 0 then Ret (dig :: acc)
      else if is_Gt j1 then
        let j1' := 2 * b ?= s in
        if is_Gt j1' || (is_Eq j1' && Z.odd dig) then
          if dig =? 9 then Roundoff (9 :: acc) else Ret (dig + 1 :: acc)
        else Ret (dig :: acc)
      else Ret (dig :: acc)
    else if is_Gt j1 then
      if dig =? 9 then Roundoff (9 :: acc) else Ret (dig + 1 :: acc)
    else dtoa_digits fuel even (b * 10) s (mlo * 10) (mhi * 10) (dig :: acc).
Proof. reflexivity. Qed.

Ltac exits :=
  repeat match goal with
  | |- good_exit (if ?c then _ else _) =>
    let E := fresh "E" in destruct c eqn:E
  | |- good_exit (Ret ((if ?c then _ else _) :: _)) => destruct c
  end.

Ltac neq9 :=
  repeat match goal with
  | H : (_ =? 9) = false |- _ => apply Z.eqb_neq in H
  end.

Lemma dtoa_digits_good (f : nat) :
  forall even b s mlo mhi acc,
    0 < s -> 0 < mlo -> s <= mlo * 10 ^ Z.of_nat f ->
    0 <= b < 10 * s -> Forall digit acc ->
    good_exit (dtoa_digits (S f) even b s mlo mhi acc).
Proof.
  induction f as [|f IH]; intros even b s mlo mhi acc Hs Hm Hf Hb Ha;
    rewrite dtoa_digits_step; cbv zeta;
    pose proof (Z.mod_pos_bound b s Hs) as Hr;
    assert (Hd : digit (b / s))
      by (unfold digit; pose proof (Z.div_mod b s ltac:(lia)); nia).
  all: exits; neq9.
  all: try (cbn [good_exit]; split; [discriminate|]; constructor;
            [unfold digit in *; lia | exact Ha]).
  all: try (cbn [good_exit]; split; [|eexists; reflexivity]; constructor;
            [unfold digit; lia | exact Ha]).
  - (* the bound is used up: the remainder is below [mlo] *)
    exfalso. change (10 ^ Z.of_nat 0) with 1 in Hf.
    rewrite (proj2 (Z.compare_lt_iff (b mod s) mlo)) in E0 by lia.
    discriminate.
  - apply IH; try lia.
    + rewrite Nat2Z.inj_succ, Z.pow_succ_r in Hf by lia. lia.
    + constructor; assumption.
Qed.

Section FloorLog10.
Variables b s : Z.
Hypotheses (Hb : 0 < b) (Hs : 0 < s).

Lemma pow10_pos (k : Z) : 0 < 10 ^ k \/ k < 0.
Proof.
  destruct (Z.le_gt_cases 0 k); [left | right; lia].
  apply Z.pow_pos_nonneg; lia.
Qed.

Lemma pow2_le_pow10 (k : Z) : 0 <= k -> 2 ^ k <= 10 ^ k.
Proof. intros H. apply Z.pow_le_mono_l. lia. Qed.

(** Below the bit length of [s], the power of ten is not above [b / s]. *)
Lemma pow10_le_low : pow10_le (- (Z.log2 s + 1)) b s = true.
Proof.
  pose proof (Z.log2_nonneg s) as L. pose proof (Z.log2_spec s Hs) as [_ U].
  unfold pow10_le. destruct (Z.leb_spec 0 (- (Z.log2 s + 1))); [lia|].
  apply Z.leb_le. rewrite Z.opp_involutive.
  pose proof (pow2_le_pow10 (Z.log2 s + 1) ltac:(lia)).
  replace (Z.succ (Z.log2 s)) with (Z.log2 s + 1) in U by lia. nia.
Qed.

(** From the bit length of [b] on, the power of ten is above [b / s]. *)
Lemma pow10_le_high (k : Z) : Z.log2 b + 1 <= k -> pow10_le k b s = false.
Proof.
  intros H. pose proof (Z.log2_nonneg b) as L.
  pose proof (Z.log2_spec b Hb) as [_ U].
  replace (Z.succ (Z.log2 b)) with (Z.log2 b + 1) in U by lia.
  unfold pow10_le. destruct (Z.leb_spec 0 k); [|lia].
  apply Z.leb_gt.
  pose proof (pow2_le_pow10 k ltac:(lia)).
  assert (2 ^ (Z.log2 b + 1) <= 2 ^ k) by (apply Z.pow_le_mono_r; lia).
  nia.
Qed.

Lemma count_up_spec (fuel : nat) :
  forall k,
    pow10_le k b s = true -> Z.log2 b <= k + Z.of_nat fuel ->
    pow10_le (count_up fuel k b s) b s = true
    /\ pow10_le (count_up fuel k b s + 1) b s = false.
Proof.
  induction fuel as [|fuel IH]; intros k Hk Hf; cbn [count_up].
  - split; [exact Hk|]. apply pow10_le_high. lia.
  - destruct (pow10_le (k + 1) b s) eqn:E.
    + apply IH; [exact E | lia].
    + split; assumption.
Qed.

(** [floor_log10 b s] is the exponent [k] with
    [10^k <= b / s < 10^(k+1)]. *)
Lemma floor_log10_spec :
  pow10_le (floor_log10 b s) b s = true
  /\ pow10_le (floor_log10 b s + 1) b s = false.
Proof.
  unfold floor_log10.
  set (est := (Z.log2 b - Z.log2 s - 1) * 1233 / 4096 - 1).
  set (start := if pow10_le est b s then est else - (Z.log2 s + 1)).
  assert (V : pow10_le start b s = true).
  { unfold start. destruct (pow10_le est b s) eqn:E;
      [exact E | apply pow10_le_low]. }
  apply count_up_spec; [exact V|].
  destruct (Z.le_gt_cases start (Z.log2 b + 2)).
  - rewrite Z2Nat.id by lia. lia.
  - lia.
Qed.

End FloorLog10.

(** Scaled by the power of ten found, the value is below ten. *)
Lemma scaled_below (b0 s0 k : Z) :
  pow10_le (k + 1) b0 s0 = false ->
  b0 * 10 ^ Z.max (- k) 0 < 10 * (s0 * 10 ^ Z.max k 0).
Proof.
  unfold pow10_le. intros U.
  destruct (Z.leb_spec 0 (k + 1)); apply Z.leb_gt in U.
  - destruct (Z.le_gt_cases 0 k).
    + rewrite (Z.max_r (- k) 0), (Z.max_l k 0) by lia.
      rewrite Z.pow_add_r in U by lia. change (10 ^ 1) with 10 in U.
      change (10 ^ 0) with 1. lia.
    + assert (k = -1) as -> by lia. change (-1 + 1) with 0 in U.
      change (Z.max (- -1) 0) with 1. change (Z.max (-1) 0) with 0.
      change (10 ^ 0) with 1 in *. change (10 ^ 1) with 10. lia.
  - rewrite (Z.max_l (- k) 0), (Z.max_r k 0) by lia.
    replace (- k) with (- (k + 1) + 1) by lia.
    rewrite Z.pow_add_r by lia. change (10 ^ 1) with 10.
    change (10 ^ 0) with 1. lia.
Qed.

(** The digits returned by [dtoa]: at least one, all decimal. *)
Lemma dtoa_digits_decimal (m : positive) (e : Z) :
  fst (dtoa m e) <> [] /\ Forall digit (fst (dtoa m e)).
Proof.
  unfold dtoa.
  set (w := if (Z.pos m =? 2 ^ 52) && (-1074 <? e) then 2 else 1).
  set (u := 2 ^ Z.max e 0).
  set (b0 := Z.pos m * 2 * w * u).
  set (s0 := 2 * w * 2 ^ Z.max (- e) 0).
  set (k := floor_log10 b0 s0).
  set (up := 10 ^ Z.max (- k) 0).
  set (s := s0 * 10 ^ Z.max k 0).
  assert (Hw : 0 < w) by (unfold w; destruct (_ && _); lia).
  assert (Hu : 0 < u) by (unfold u; apply Z.pow_pos_nonneg; lia).
  assert (Hup : 0 < up) by (unfold up; apply Z.pow_pos_nonneg; lia).
  assert (Hb0 : 0 < b0) by (unfold b0; nia).
  assert (Hs0 : 0 < s0).
  { unfold s0. assert (0 < 2 ^ Z.max (- e) 0) by (apply Z.pow_pos_nonneg; lia).
    nia. }
  assert (Hs : 0 < s).
  { unfold s. assert (0 < 10 ^ Z.max k 0) by (apply Z.pow_pos_nonneg; lia).
    nia. }
  assert (Hmlo : 0 < u * up) by nia.
  assert (Hb : 0 <= b0 * up < 10 * s).
  { split; [nia|]. apply scaled_below.
    apply (floor_log10_spec b0 s0 Hb0 Hs0). }
  destruct (digits_fuel_enough s (u * up) Hs Hmlo) as [f [Ef Hf]].
  rewrite Ef.
  pose proof (dtoa_digits_good f (Z.even (Z.pos m)) (b0 * up) s (u * up)
                (w * u * up) [] Hs Hmlo Hf Hb (Forall_nil _)) as G.
  destruct (dtoa_digits (S f) _ _ _ _ _ _) as [a|a|a]; cbn [good_exit] in G.
  - destruct G as [N F]. cbn [fst]. split.
    + intros R. apply N. apply (f_equal (@rev Z)) in R.
      rewrite rev_involutive in R. exact R.
    + apply Forall_rev. exact F.
  - destruct G as [F [a' ->]].
    destruct (drop_while (Z.eqb 9) (9 :: a')) as [|d r] eqn:D; cbn [fst].
    + split; [discriminate|]. repeat constructor; unfold digit; lia.
    + pose proof (drop_while_head _ _ _ _ D) as N9. apply Z.eqb_neq in N9.
      destruct (drop_while_split (Z.eqb 9) (9 :: a')) as [pre [Ep _]].
      rewrite D in Ep. rewrite Ep in F. apply Forall_app in F.
      destruct F as [_ F]. inversion F as [|? ? Fd Fr]; subst.
      split.
      * intros R. apply (f_equal (@rev Z)) in R.
        rewrite rev_involutive in R. discriminate.
      * apply Forall_rev. constructor; [unfold digit in *; lia | exact Fr].
  - contradiction.
Qed.

Lemma zeros_digits (n : Z) : forallb is_digit (zeros n) = true.
Proof. unfold zeros. induction (Z.to_nat n); simpl; auto. Qed.

Lemma zeros_nonempty (n : Z) : 0 < n -> zeros n <> [].
Proof.
  intros H. unfold zeros. destruct (Z.to_nat n) eqn:E; [lia | discriminate].
Qed.

Lemma digit_chars (ds : list Z) :
  Forall digit ds -> forallb is_digit (map (fun d => 48 + d) ds) = true.
Proof.
  induction 1 as [|d ds Hd _ IH]; cbn [map forallb]; [reflexivity|].
  rewrite IH, andb_true_r. unfold is_digit, digit in *.
  apply andb_true_iff. split; apply Z.leb_le; lia.
Qed.

Lemma split_at_point_parts (a f : str) :
  forallb is_digit a = true -> split_at_point (a ++ 46 :: f) = (a, Some f).
Proof.
  induction a as [|c a IH]; simpl; [reflexivity|].
  intros H. apply andb_prop in H. destruct H as [Hc Ha]. rewrite (IH Ha).
  destruct (Z.eqb_spec c 46) as [->|]; [discriminate | reflexivity].
Qed.

Lemma last_digit (f : str) :
  f <> [] -> forallb is_digit f = true -> is_digit (last f 0) = true.
Proof.
  induction f as [|c f IH]; [congruence|]. intros _ H. simpl in H.
  apply andb_prop in H. destruct H as [Hc Hf].
  destruct f as [|c' f]; [exact Hc|]. apply IH; [discriminate | exact Hf].
Qed.

Lemma last_app_nonempty {A : Type} (l f : list A) (d : A) :
  f <> [] -> last (l ++ f) d = last f d.
Proof.
  intros N. induction l as [|x l IH]; [reflexivity|].
  simpl. destruct (l ++ f) eqn:E; [|exact IH].
  apply app_eq_nil in E. destruct E as [_ E]. congruence.
Qed.

(** Digits, a point, digits, after an optional sign: plain decimal
    text, which does not end with the point. *)
Lemma plain_of_parts (sign : bool) (a f : str) :
  a <> [] -> f <> [] ->
  forallb is_digit a = true -> forallb is_digit f = true ->
  let p := (if sign then [45] else []) ++ a ++ 46 :: f in
  plain_decimal p = true /\ (last p 0 =? 46) = false.
Proof.
  intros Na Nf Da Df p. split.
  - unfold plain_decimal, p.
    assert (B : split_at_point (a ++ 46 :: f) = (a, Some f))
      by (apply split_at_point_parts; exact Da).
    assert (G : all_digits a && all_digits f = true).
    { unfold all_digits. rewrite Da, Df.
      destruct a; [congruence|]. destruct f; [congruence|]. reflexivity. }
    destruct sign; cbn [app].
    + rewrite Z.eqb_refl, B. exact G.
    + destruct a as [|c a]; [congruence|]. cbn [app].
      assert (Hc : (c =? 45) = false).
      { simpl in Da. apply andb_prop in Da. destruct Da as [Dc _].
        unfold is_digit in Dc. apply andb_prop in Dc. destruct Dc as [D1 _].
        apply Z.leb_le in D1. apply Z.eqb_neq. lia. }
      rewrite Hc. change (c :: a ++ 46 :: f) with ((c :: a) ++ 46 :: f).
      rewrite B. exact G.
  - unfold p. rewrite app_assoc.
    change (46 :: f) with ([46] ++ f). rewrite app_assoc.
    rewrite last_app_nonempty by exact Nf.
    pose proof (last_digit f Nf Df) as L. unfold is_digit in L.
    apply andb_prop in L. destruct L as [L1 L2].
    apply Z.leb_le in L1. apply Z.leb_le in L2. apply Z.eqb_neq.
    assert (K : forall z : Z, 48 <= z -> z <= 57 -> z <> 46) by (intros; lia).
    apply K; assumption.
Qed.

Lemma forallb_firstn {A : Type} (p : A -> bool) (n : nat) (l : list A) :
  forallb p l = true -> forallb p (firstn n l) = true.
Proof.
  revert n. induction l as [|x l IH]; intros [|n] H; simpl; auto.
  simpl in H. apply andb_prop in H. destruct H as [Hx Hl].
  rewrite Hx, (IH n Hl). reflexivity.
Qed.

Lemma forallb_skipn {A : Type} (p : A -> bool) (n : nat) (l : list A) :
  forallb p l = true -> forallb p (skipn n l) = true.
Proof.
  revert n. induction l as [|x l IH]; intros [|n] H; simpl; auto.
  simpl in H. apply andb_prop in H. destruct H as [Hx Hl]. apply IH, Hl.
Qed.

(** Without an exponent, [format_float_short] writes plain decimal
    text. *)
Lemma format_float_short_plain (sign : bool) (digits : list Z) (decpt : Z) :
  digits <> [] -> Forall digit digits ->
  (decpt <=? -4) || (16 <? decpt) = false ->
  plain_decimal (format_float_short sign digits decpt) = true.
Proof.
  intros N F X. unfold format_float_short. cbv zeta. rewrite X.
  cbn [negb]. change (lit "-") with [45]. change (lit ".") with [46].
  set (ds := map (fun d => 48 + d) digits).
  assert (Dd : forallb is_digit ds = true) by (apply digit_chars; exact F).
  assert (Nd : ds <> [])
    by (unfold ds; destruct digits; [contradiction | discriminate]).
  assert (Ld : List.length ds = List.length digits) by (apply length_map).
  set (len := Z.of_nat (List.length digits)).
  assert (Hlen : 0 < len)
    by (unfold len; destruct digits; [contradiction | simpl; lia]).
  match goal with
  | |- plain_decimal (if last ?p 0 =? 46 then _ else _) = true =>
    cut (plain_decimal p = true /\ (last p 0 =? 46) = false);
      [intros [P L]; rewrite L; exact P|]
  end.
  destruct (Z.leb_spec decpt 0) as [C0|C0].
  - (* 0.000ddd *)
    replace (0 <? decpt) with false by (symmetry; apply Z.ltb_ge; lia).
    replace (len <? decpt) with false by (symmetry; apply Z.ltb_ge; lia).
    replace (decpt <? len) with true by (symmetry; apply Z.ltb_lt; lia).
    cbn [andb]. replace (decpt - (decpt - 1)) with 1 by lia.
    replace (len - len) with 0 by lia.
    change (zeros 0) with (@nil Z). change (zeros 1) with [48].
    rewrite app_nil_r, <- !app_assoc.
    apply (plain_of_parts sign [48] (zeros (0 - decpt) ++ ds)).
    + discriminate.
    + intros E. apply app_eq_nil in E. destruct E as [_ E]. exact (Nd E).
    + reflexivity.
    + rewrite forallb_app. apply andb_true_iff.
      split; [apply zeros_digits | exact Dd].
  - replace (0 <? decpt) with true by (symmetry; apply Z.ltb_lt; lia).
    replace (0 - 0) with 0 by lia. change (zeros 0) with (@nil Z).
    rewrite app_nil_r. cbn [andb].
    destruct (Z.leb_spec decpt len) as [C1|C1].
    + (* ddd.ddd *)
      replace (len <? decpt) with false by (symmetry; apply Z.ltb_ge; lia).
      rewrite <- !app_assoc.
      apply (plain_of_parts sign (firstn (Z.to_nat decpt) ds)
               (skipn (Z.to_nat decpt) ds
                  ++ zeros ((if decpt <? len then len else decpt + 1) - len))).
      * destruct ds; [contradiction|].
        destruct (Z.to_nat decpt) eqn:E; [lia | discriminate].
      * intros E. apply app_eq_nil in E. destruct E as [E1 E2].
        destruct (Z.ltb_spec decpt len).
        -- apply (f_equal (@List.length Z)) in E1.
           rewrite length_skipn in E1. simpl in E1. unfold len in *. lia.
        -- apply (zeros_nonempty (decpt + 1 - len)); [lia | exact E2].
      * apply forallb_firstn. exact Dd.
      * rewrite forallb_app. apply andb_true_iff.
        split; [apply forallb_skipn; exact Dd | apply zeros_digits].
    + (* ddd000.0 *)
      replace (len <? decpt) with true by (symmetry; apply Z.ltb_lt; lia).
      replace (decpt <? len) with false by (symmetry; apply Z.ltb_ge; lia).
      replace (decpt + 1 - decpt) with 1 by lia. change (zeros 1) with [48].
      rewrite <- !app_assoc.
      rewrite (app_assoc ds). 
      apply (plain_of_parts sign (ds ++ zeros (decpt - len)) [48]).
      * intros E. apply app_eq_nil in E. destruct E as [E _]. exact (Nd E).
      * discriminate.
      * rewrite forallb_app. apply andb_true_iff.
        split; [exact Dd | apply zeros_digits].
      * reflexivity.
Qed.

(** A float is written in plain decimal text exactly when it is finite
    and [repr] uses no exponent for it. *)
Lemma repr_plain (x : float) :
  plain_decimal (repr x) = is_finite x && negb (uses_exponent x).
Proof.
  destruct x as [s|s| |s m e].
  - destruct s; reflexivity.
  - destruct s; reflexivity.
  - reflexivity.
  - cbn [is_finite andb].
    destruct (uses_exponent (S754_finite s m e)) eqn:U.
    + destruct (plain_decimal (repr (S754_finite s m e))) eqn:P;
        [|reflexivity].
      exfalso. exact (plain_decimal_no_e _ P (repr_exponent _ U)).
    + cbn [repr uses_exponent] in *.
      pose proof (dtoa_digits_decimal m e) as [N F].
      destruct (dtoa m e) as [digits decpt]. cbn [fst snd] in *.
      apply format_float_short_plain; assumption.
Qed.

(** C4 (amended).  When every argument can be converted to text (an
    [int] has at most 4300 digits; [str(n)] raises for a longer one)
    and the device accepts the four writes, [configure_waveform] makes
    exactly four sends, in the order Function, Frequency, Amplitude,
    Offset, each command being its template followed by the argument
    as [str()] writes it: a string as it is, an [int] in plain decimal
    text, a [float] by its [repr].  The [repr] of a float is plain
    decimal text exactly when the float is finite and the decimal point
    of its digits is at a position from -3 to 16; a finite float with
    the point at a position of at most -4 or above 16 is written with
    an exponent; an infinity or a NaN is written [inf], [-inf] or
    [nan].  The float 1000.0 gives [":FUNCtion:FREQuency 1000.0"], the
    float 1e-05 gives [":FUNCtion:FREQuency 1e-05"], the default
    arguments give ["SINE"], ["1000"], ["2.0"] and ["0.0"]. *)
Theorem configure_waveform_four_sends_in_order
  (o : self) (shape freq ampl offset : PyValue.value) (E : env) (t : trace) :
  let cmds := waveform_commands shape freq ampl offset in
  (PyValue.formats shape = true -> PyValue.formats freq = true ->
   PyValue.formats ampl = true -> PyValue.formats offset = true ->
   (forall k, (k < 4)%nat ->
      on_write E (t ++ sent o (firstn k cmds)) (dev o) OUT_ENDPOINT
        (nth k cmds [] ++ CR) = None) ->
   configure_waveform o shape freq ampl offset E t = (Ok tt, t ++ sent o cmds)
   /\ payloads (snd (configure_waveform o shape freq ampl offset E t))
      = payloads t
        ++ [ lit ":FUNCtion " ++ PyValue.format shape ++ CR;
             lit ":FUNCtion:FREQuency " ++ PyValue.format freq ++ CR;
             lit ":FUNCtion:AMPLitude " ++ PyValue.format ampl ++ CR;
             lit ":FUNCtion:OFFSet " ++ PyValue.format offset ++ CR ])
  /\ (forall s, PyValue.format (PyValue.VStr s) = s)
  /\ (forall n, PyValue.formats (PyValue.VInt n) = true ->
                plain_decimal (PyValue.format (PyValue.VInt n)) = true)
  /\ (forall x, plain_decimal (PyValue.format (PyValue.VFloat x))
                = is_finite x && negb (uses_exponent x))
  /\ (forall x, uses_exponent x = true ->
                is_finite x = true
                /\ In 101 (PyValue.format (PyValue.VFloat x)))
  /\ (forall x, is_finite x = false ->
                In (PyValue.format (PyValue.VFloat x))
                   [lit "inf"; lit "-inf"; lit "nan"])
  /\ lit ":FUNCtion:FREQuency "
       ++ PyValue.format (PyValue.VFloat (decimal 10000 1))
     = lit ":FUNCtion:FREQuency 1000.0"
  /\ lit ":FUNCtion:FREQuency "
       ++ PyValue.format (PyValue.VFloat (decimal 1 5))
     = lit ":FUNCtion:FREQuency 1e-05"
  /\ map PyValue.format
       [default_shape; default_freq; default_ampl; default_offset]
     = [lit "SINE"; lit "1000"; lit "2.0"; lit "0.0"].
Proof.
  intros cmds.
  split; [|split; [|split; [|split; [|split; [|split; [|split; [|split]]]]]]].
  - intros _ _ _ _ H.
    assert (R : configure_waveform o shape freq ampl offset E t
                = (Ok tt, t ++ sent o cmds)).
    { rewrite configure_waveform_send_all. apply send_all_ok. exact H. }
    split; [exact R|]. rewrite R. cbn [snd].
    rewrite payloads_app, payloads_sent. unfold cmds, waveform_commands.
    cbn [map]. rewrite <- !app_assoc. reflexivity.
  - reflexivity.
  - intros n _. apply int_str_plain.
  - intros x. apply repr_plain.
  - intros x U. split; [|exact (repr_exponent x U)].
    destruct x; [reflexivity|discriminate U|discriminate U|reflexivity].
  - intros x F. cbn [PyValue.format].
    destruct x as [s|s| |s m e]; try discriminate F; cbn [repr].
    + destruct s; [right; left; reflexivity|left; reflexivity].
    + right. right. left. reflexivity.
  - vm_compute. reflexivity.
  - vm_compute. reflexivity.
  - vm_compute. reflexivity.
Qed.

Lemma configure_waveform_four_sends_in_order_witness :
  payloads (snd (configure_waveform Sim.gen default_shape
                   (PyValue.VFloat (decimal 10000 1))
                   default_ampl default_offset Sim.answering []))
  = [ lit ":FUNCtion SINE" ++ CR;
      lit ":FUNCtion:FREQuency 1000.0" ++ CR;
      lit ":FUNCtion:AMPLitude 2.0" ++ CR;
      lit ":FUNCtion:OFFSet 0.0" ++ CR ]
  /\ plain_decimal (PyValue.format default_freq) = true
  /\ In 101 (PyValue.format (PyValue.VFloat (decimal 1 5)))
  /\ In (PyValue.format (PyValue.VFloat (S754_infinity true)))
        [lit "inf"; lit "-inf"; lit "nan"].
Proof.
  pose proof (configure_waveform_four_sends_in_order Sim.gen default_shape
                (PyValue.VFloat (decimal 10000 1))
                default_ampl default_offset Sim.answering [])
    as [H1 [_ [H3 [_ [H5 [H6 _]]]]]].
  split; [|split; [|split]].
  - rewrite (proj2 (H1 eq_refl eq_refl eq_refl eq_refl (fun _ _ => eq_refl))).
    vm_compute. reflexivity.
  - apply (H3 1000). reflexivity.
  - apply (H5 (decimal 1 5)). vm_compute. reflexivity.
  - apply (H6 (S754_infinity true)). reflexivity.
Defined.

(** With the frequency 1e-05 Hz the second command carries an exponent. *)
Lemma configure_waveform_small_frequency :
  payloads (snd (configure_waveform Sim.gen default_shape
                   (PyValue.VFloat (PyFloat.decimal 1 5))
                   default_ampl default_offset Sim.answering []))
  = [ lit ":FUNCtion SINE" ++ CR;
      lit ":FUNCtion:FREQuency 1e-05" ++ CR;
      lit ":FUNCtion:AMPLitude 2.0" ++ CR;
      lit ":FUNCtion:OFFSet 0.0" ++ CR ].
Proof. vm_compute. reflexivity. Qed.

Lemma small_frequency_not_plain (f : str) :
  lit ":FUNCtion:FREQuency 1e-05" ++ CR
  = lit ":FUNCtion:FREQuency " ++ f ++ CR ->
  plain_decimal f = true -> False.
Proof.
  intros H Pf.
  change (lit ":FUNCtion:FREQuency 1e-05" ++ CR)
    with (lit ":FUNCtion:FREQuency " ++ (lit "1e-05" ++ CR)) in H.
  apply app_inv_head in H. apply app_inv_tail in H. subst f.
  vm_compute in Pf. discriminate.
Qed.

(** C4, as worded, fails: with the frequency 1e-05 Hz (a [float]) the
    second command is [":FUNCtion:FREQuency 1e-05"], whose argument is
    no plain decimal text. *)
Lemma plain_decimal_interpolation_fails : ~ spec_plain_decimal_interpolation.
Proof.
  intros C.
  destruct (C Sim.gen default_shape (PyValue.VFloat (PyFloat.decimal 1 5))
              default_ampl default_offset Sim.answering []
              (fun _ _ _ _ => eq_refl))
    as [f [a [v [Pf [_ [_ H]]]]]].
  rewrite configure_waveform_small_frequency in H.
  apply (f_equal (fun l => nth 1 l [])) in H.
  exact (small_frequency_not_plain f H Pf).
Qed.

Import Calls.

(* ================================================================== *)
(** * Construction and [info]: what is printed, and when *)
(* ================================================================== *)

Lemma printed_app (t1 t2 : trace) :
  printed (t1 ++ t2) = printed t1 ++ printed t2.
Proof.
  induction t1 as [|ev t IH]; [reflexivity|].
  destruct ev; simpl; rewrite IH; reflexivity.
Qed.

(** A run of [__init__], stage by stage. *)
Lemma init_run (vid pid tmo : Z) (E : env) (t : trace) :
  __init__ vid pid tmo E t =
  match find (matches vid pid) (bus E) with
  | None => (Raise (ValueError not_found), t ++ [EvFind vid pid])
  | Some d =>
    let o := {| vendor_id := vid; product_id := pid; timeout := tmo;
                dev := d |} in
    match on_set_configuration E (t ++ [EvFind vid pid]) d with
    | Some e => (Raise e, t ++ [EvFind vid pid; EvSetConfiguration d])
    | None =>
      match query o (lit "*IDN?") E
              (t ++ [EvFind vid pid; EvSetConfiguration d]) with
      | (Ok idn, t') =>
        (Ok o, t' ++ [EvPrint (lit "Connected: " ++ idn ++ LF)])
      | (Raise e, t') => (Raise e, t')
      end
    end
  end.
Proof.
  unfold __init__, bind, usb_find, raise, set_configuration, print_line, ret.
  destruct (find (matches vid pid) (bus E)) as [d|]; [|reflexivity].
  cbv zeta. rewrite <- app_assoc. cbn [app].
  destruct (on_set_configuration E (t ++ [EvFind vid pid]) d) as [e|];
    [reflexivity|].
  destruct (query _ (lit "*IDN?") E _) as [[idn|e] t']; reflexivity.
Qed.

Lemma drop_while_id {A : Type} (p : A -> bool) (l : list A) :
  (forall c rest, l = c :: rest -> p c = false) -> drop_while p l = l.
Proof.
  destruct l as [|x l]; [reflexivity|]. intros H. simpl.
  rewrite (H x l eq_refl). reflexivity.
Qed.

(** Stripping a stripped text changes nothing. *)
Lemma strip_strip (s : str) : strip (strip s) = strip s.
Proof.
  destruct (strip_spec s) as [_ [H1 H2]].
  unfold strip at 1. unfold rstrip, lstrip.
  rewrite (drop_while_id isspace (strip s) H1).
  rewrite (drop_while_id isspace (rev (strip s)) H2).
  apply rev_involutive.
Qed.

(** What [query] hands back is stripped. *)
Lemma query_result_stripped (o : self) (cmd : str) (E : env) (t t' : trace)
  (s : str) :
  query o cmd E t = (Ok s, t') -> strip s = s.
Proof.
  pose proof (query_run o cmd E t) as Q. cbv zeta in Q. rewrite Q.
  destruct (on_write E t (dev o) OUT_ENDPOINT (cmd ++ CR)); [discriminate|].
  destruct (on_read E _ (dev o) IN_ENDPOINT 4096 (timeout o)) as [data|e].
  - intros H. inversion H. apply strip_strip.
  - destruct (is_USBTimeoutError e); intros H; inversion H. reflexivity.
Qed.

(** X1.  When [__init__] returns, the instance holds the identifiers
    and the timeout it was given and a device of the bus that has both
    identifiers; its effects were, in this order, the discovery, the
    configuration of that device, the write of ["*IDN?\r"] to it, one
    read with the timeout given, and the print of one line, which is
    ["Connected: "], the stripped identity and a line end. *)
Theorem init_postcondition
  (vid pid tmo : Z) (E : env) (t t' : trace) (o : self) :
  __init__ vid pid tmo E t = (Ok o, t') ->
  vendor_id o = vid /\ product_id o = pid /\ timeout o = tmo
  /\ In (dev o) (bus E) /\ idVendor (dev o) = vid /\ idProduct (dev o) = pid
  /\ exists idn,
       strip idn = idn
       /\ t' = t ++ [ EvFind vid pid;
                      EvSetConfiguration (dev o);
                      EvWrite (dev o) OUT_ENDPOINT (lit "*IDN?" ++ CR);
                      EvRead (dev o) IN_ENDPOINT 4096 tmo;
                      EvPrint (lit "Connected: " ++ idn ++ LF) ].
Proof.
  rewrite init_run.
  destruct (find (matches vid pid) (bus E)) as [d|] eqn:F; [|discriminate].
  cbv zeta.
  destruct (on_set_configuration E (t ++ [EvFind vid pid]) d); [discriminate|].
  destruct (query _ (lit "*IDN?") E _) as [[idn|e] t1] eqn:Q; [|discriminate].
  intros H. inversion H. subst o t'. cbn [vendor_id product_id timeout dev].
  apply find_some in F. destruct F as [Hin Hm].
  unfold matches in Hm. apply andb_prop in Hm. destruct Hm as [Hv Hp].
  apply Z.eqb_eq in Hv. apply Z.eqb_eq in Hp.
  repeat (split; [assumption || reflexivity|]).
  exists idn. split; [exact (query_result_stripped _ _ _ _ _ _ Q)|].
  pose proof (query_run {| vendor_id := vid; product_id := pid;
                           timeout := tmo; dev := d |} (lit "*IDN?") E
                (t ++ [EvFind vid pid; EvSetConfiguration d])) as R.
  cbv zeta in R. cbn [dev timeout] in R. rewrite R in Q.
  destruct (on_write E _ d OUT_ENDPOINT _); [discriminate|].
  destruct (on_read E _ d IN_ENDPOINT 4096 tmo) as [data|e];
    [|destruct (is_USBTimeoutError e)]; inversion Q;
    rewrite <- !app_assoc; reflexivity.
Qed.

Lemma init_postcondition_witness :
  dev Sim.gen = Sim.ag051
  /\ exists idn,
       strip idn = idn
       /\ [ EvFind 0x5345 0x1234;
            EvSetConfiguration Sim.ag051;
            EvWrite Sim.ag051 0x03 (lit "*IDN?" ++ CR);
            EvRead Sim.ag051 0x81 4096 1000;
            EvPrint (lit "Connected: OWON,AG051,12345,1.0" ++ LF) ]
         = [] ++ [ EvFind 0x5345 0x1234;
                   EvSetConfiguration (dev Sim.gen);
                   EvWrite (dev Sim.gen) OUT_ENDPOINT (lit "*IDN?" ++ CR);
                   EvRead (dev Sim.gen) IN_ENDPOINT 4096 1000;
                   EvPrint (lit "Connected: " ++ idn ++ LF) ].
Proof.
  split; [reflexivity|].
  apply (init_postcondition 0x5345 0x1234 1000 Sim2.twin []
           [ EvFind 0x5345 0x1234;
             EvSetConfiguration Sim.ag051;
             EvWrite Sim.ag051 0x03 (lit "*IDN?" ++ CR);
             EvRead Sim.ag051 0x81 4096 1000;
             EvPrint (lit "Connected: OWON,AG051,12345,1.0" ++ LF) ]
           Sim.gen).
  vm_compute. reflexivity.
Defined.

(** X2.  A fault during construction is raised as it is and stops the
    construction at once.  With the device found: a fault of
    [set_configuration] is raised after the discovery and the
    configuration, nothing being written; a fault of the write of the
    identity query is raised after the write, nothing being read; a
    fault of the read that is no timeout is raised after the read.  In
    the three cases nothing was printed. *)
Theorem init_fault_stops_construction
  (vid pid tmo : Z) (E : env) (t : trace) (d : device) (e : exn) :
  let t1 := t ++ [EvFind vid pid] in
  let t2 := t1 ++ [EvSetConfiguration d] in
  let t3 := t2 ++ [EvWrite d OUT_ENDPOINT (lit "*IDN?" ++ CR)] in
  let t4 := t3 ++ [EvRead d IN_ENDPOINT 4096 tmo] in
  find (matches vid pid) (bus E) = Some d ->
  (on_set_configuration E t1 d = Some e ->
     __init__ vid pid tmo E t = (Raise e, t2) /\ printed t2 = printed t)
  /\ (on_set_configuration E t1 d = None ->
      on_write E t2 d OUT_ENDPOINT (lit "*IDN?" ++ CR) = Some e ->
      __init__ vid pid tmo E t = (Raise e, t3) /\ printed t3 = printed t)
  /\ (on_set_configuration E t1 d = None ->
      on_write E t2 d OUT_ENDPOINT (lit "*IDN?" ++ CR) = None ->
      on_read E t3 d IN_ENDPOINT 4096 tmo = Fault e ->
      is_USBTimeoutError e = false ->
      __init__ vid pid tmo E t = (Raise e, t4) /\ printed t4 = printed t).
Proof.
  intros t1 t2 t3 t4 F.
  assert (I := init_run vid pid tmo E t). rewrite F in I. cbv zeta in I.
  pose proof (query_run {| vendor_id := vid; product_id := pid;
                           timeout := tmo; dev := d |} (lit "*IDN?") E
                (t ++ [EvFind vid pid; EvSetConfiguration d])) as R.
  subst t1 t2 t3 t4. cbv zeta in R. cbn [dev timeout] in R.
  rewrite <- !app_assoc in *. cbn [app] in *.
  split; [|split].
  - intros C. rewrite C in I. split; [exact I|].
    rewrite printed_app. cbn [printed]. apply app_nil_r.
  - intros C W. rewrite C, R, W in I. split; [exact I|].
    rewrite printed_app. cbn [printed]. apply app_nil_r.
  - intros C W Rd T. rewrite C, R, W, Rd, T in I. split; [exact I|].
    rewrite printed_app. cbn [printed]. apply app_nil_r.
Qed.

Lemma init_fault_stops_construction_witness :
  __init__ 0x5345 0x1234 1000 Sim2.busy []
  = (Raise (USBError "Resource busy"),
     [EvFind 0x5345 0x1234; EvSetConfiguration Sim.ag051])
  /\ __init__ 0x5345 0x1234 1000 Sim.unplugged []
     = (Raise (USBError "No such device"),
        [EvFind 0x5345 0x1234; EvSetConfiguration Sim.ag051;
         EvWrite Sim.ag051 0x03 (lit "*IDN?" ++ CR)])
  /\ __init__ 0x5345 0x1234 1000 Sim.stalled []
     = (Raise (USBError "Pipe error"),
        [EvFind 0x5345 0x1234; EvSetConfiguration Sim.ag051;
         EvWrite Sim.ag051 0x03 (lit "*IDN?" ++ CR);
         EvRead Sim.ag051 0x81 4096 1000]).
Proof.
  split; [|split].
  - apply (proj1 (init_fault_stops_construction 0x5345 0x1234 1000
                    Sim2.busy [] Sim.ag051 (USBError "Resource busy")
                    eq_refl)).
    reflexivity.
  - apply (proj1 (proj2 (init_fault_stops_construction 0x5345 0x1234 1000
                           Sim.unplugged [] Sim.ag051
                           (USBError "No such device") eq_refl)));
      reflexivity.
  - apply (proj2 (proj2 (init_fault_stops_construction 0x5345 0x1234 1000
                           Sim.stalled [] Sim.ag051
                           (USBError "Pipe error") eq_refl)));
      reflexivity.
Defined.

(* ================================================================== *)
(** * Empty and blank responses *)
(* ================================================================== *)

Lemma drop_while_all {A : Type} (p : A -> bool) (l : list A) :
  forallb p l = true -> drop_while p l = [].
Proof.
  induction l as [|x l IH]; [reflexivity|]. simpl. intros H.
  apply andb_prop in H. destruct H as [Hx Hl]. rewrite Hx. apply IH, Hl.
Qed.

(** A text strips to nothing exactly when it is all whitespace. *)
Lemma strip_nil_iff (s : str) : strip s = [] <-> forallb isspace s = true.
Proof.
  split.
  - intros H. destruct (strip_spec s) as [[l [r [E [Fl Fr]]]] _].
    rewrite H in E. rewrite E, forallb_app, Fl. exact Fr.
  - intros H. unfold strip, rstrip, lstrip.
    rewrite (drop_while_all isspace s H). reflexivity.
Qed.

(** X3.  Construction does not need an answer: when the device is
    found, configured and takes the write, a read that times out, or
    that brings only whitespace, still gives an instance, and the line
    printed is ["Connected: "] with nothing after it in both cases. *)
Theorem init_succeeds_without_identity
  (vid pid tmo : Z) (E : env) (t : trace) (d : device) :
  let o := {| vendor_id := vid; product_id := pid; timeout := tmo;
              dev := d |} in
  let t1 := t ++ [EvFind vid pid] in
  let t2 := t1 ++ [EvSetConfiguration d] in
  let t3 := t2 ++ [EvWrite d OUT_ENDPOINT (lit "*IDN?" ++ CR)] in
  let t4 := t3 ++ [EvRead d IN_ENDPOINT 4096 tmo] in
  find (matches vid pid) (bus E) = Some d ->
  on_set_configuration E t1 d = None ->
  on_write E t2 d OUT_ENDPOINT (lit "*IDN?" ++ CR) = None ->
  (forall e,
     on_read E t3 d IN_ENDPOINT 4096 tmo = Fault e ->
     is_USBTimeoutError e = true ->
     __init__ vid pid tmo E t
     = (Ok o, t4 ++ [EvPrint (lit "Connected: " ++ LF)]))
  /\ (forall data,
     on_read E t3 d IN_ENDPOINT 4096 tmo = Offer data ->
     forallb isspace (decode (firstn 4096 data)) = true ->
     __init__ vid pid tmo E t
     = (Ok o, t4 ++ [EvPrint (lit "Connected: " ++ LF)])).
Proof.
  intros o t1 t2 t3 t4 F C W.
  assert (I := init_run vid pid tmo E t). rewrite F in I. cbv zeta in I.
  pose proof (query_run o (lit "*IDN?") E
                (t ++ [EvFind vid pid; EvSetConfiguration d])) as R.
  subst o t1 t2 t3 t4. cbv zeta in R. cbn [dev timeout] in R.
  rewrite <- !app_assoc in *. cbn [app] in *.
  rewrite C, R, W in I.
  split.
  - intros e Rd T. rewrite Rd, T in I. rewrite I, <- app_assoc. reflexivity.
  - intros data Rd S. rewrite Rd in I.
    rewrite (proj2 (strip_nil_iff _) S) in I.
    rewrite I, <- app_assoc. reflexivity.
Qed.

Lemma init_succeeds_without_identity_witness :
  __init__ 0x5345 0x1234 1000 Sim.silent []
  = (Ok Sim.gen,
     [ EvFind 0x5345 0x1234;
       EvSetConfiguration Sim.ag051;
       EvWrite Sim.ag051 0x03 (lit "*IDN?" ++ CR);
       EvRead Sim.ag051 0x81 4096 1000;
       EvPrint (lit "Connected: " ++ LF) ])
  /\ __init__ 0x5345 0x1234 1000 Sim2.blank []
     = __init__ 0x5345 0x1234 1000 Sim.silent [].
Proof.
  pose proof (init_succeeds_without_identity 0x5345 0x1234 1000 Sim.silent []
                Sim.ag051 eq_refl eq_refl eq_refl) as [A _].
  pose proof (init_succeeds_without_identity 0x5345 0x1234 1000 Sim2.blank []
                Sim.ag051 eq_refl eq_refl eq_refl) as [_ B].
  specialize (A (USBTimeoutError "Operation timed out") eq_refl eq_refl).
  specialize (B [x0d; x0a] eq_refl eq_refl).
  split; [exact A|]. rewrite A. exact B.
Defined.



(** X5.  The empty string that [query] returns does not mean that
    nothing arrived: after a read that succeeded, the result is empty
    exactly when the bytes read decode to whitespace only (no bytes, a
    bare line end, or invalid bytes alone among them). *)
Theorem query_empty_iff_blank
  (o : self) (cmd : str) (E : env) (t : trace) (data : bytes) :
  on_write E t (dev o) OUT_ENDPOINT (cmd ++ CR) = None ->
  on_read E (t ++ [EvWrite (dev o) OUT_ENDPOINT (cmd ++ CR)]) (dev o)
    IN_ENDPOINT 4096 (timeout o) = Offer data ->
  (fst (query o cmd E t) = Ok []
   <-> forallb isspace (decode (firstn 4096 data)) = true).
Proof.
  intros W R. pose proof (query_run o cmd E t) as Q. cbv zeta in Q.
  rewrite W, R in Q. rewrite Q. cbn [fst]. split.
  - intros H. apply strip_nil_iff. inversion H. reflexivity.
  - intros H. f_equal. apply strip_nil_iff. exact H.
Qed.

Lemma query_empty_iff_blank_witness :
  fst (query Sim.gen (lit ":CHANnel ON") Sim2.blank []) = Ok [].
Proof.
  apply (query_empty_iff_blank Sim.gen (lit ":CHANnel ON") Sim2.blank []
           [x0d; x0a] eq_refl eq_refl).
  reflexivity.
Defined.

(* ================================================================== *)
(** * The methods that send and expect no response, and scripts *)
(* ================================================================== *)

Lemma bind_ret_tt (c : M unit) (E : env) (t : trace) :
  bind c (fun _ => ret tt) E t = c E t.
Proof. unfold bind, ret. destruct (c E t) as [[[]|e] t']; reflexivity. Qed.

(** Every call but [reset] is a run of [send]s over its commands. *)
Lemma run_send_all (o : self) (c : call) (E : env) (t : trace) :
  c <> Reset -> run o c E t = send_all o (commands c) E t.
Proof.
  intros N. destruct c; try contradiction; cbn [run commands];
    try (unfold set_function, set_frequency, set_amplitude, set_offset,
           output_on, output_off; cbn [send_all];
         symmetry; apply bind_ret_tt).
  apply configure_waveform_send_all.
Qed.

Lemma call_eq_reset (c : call) : c = Reset \/ c <> Reset.
Proof. destruct c; (left; reflexivity) || (right; discriminate). Qed.

Lemma reset_run (o : self) (E : env) (t : trace) :
  reset o E t =
  match on_write E t (dev o) OUT_ENDPOINT (lit "*RST" ++ CR) with
  | None => (Ok tt, t ++ sent_one o (lit "*RST") ++ [EvSleep (decimal 5 1)])
  | Some e => (Raise e, t ++ [EvWrite (dev o) OUT_ENDPOINT (lit "*RST" ++ CR)])
  end.
Proof.
  unfold reset, bind, sleep. rewrite send_run.
  destruct (on_write E t (dev o) OUT_ENDPOINT (lit "*RST" ++ CR));
    [reflexivity|]. rewrite <- app_assoc. reflexivity.
Qed.

Lemma send_all_cases (o : self) (cmds : list str) (E : env) (t : trace) :
  send_all o cmds E t = (Ok tt, t ++ sent o cmds)
  \/ exists n e,
       (n < List.length cmds)%nat
       /\ send_all o cmds E t
          = (Raise e, t ++ sent o (firstn n cmds)
                        ++ [EvWrite (dev o) OUT_ENDPOINT
                              (nth n cmds [] ++ CR)]).
Proof.
  revert t. induction cmds as [|c cmds IH]; intros t.
  - left. simpl. unfold ret. rewrite app_nil_r. reflexivity.
  - cbn [send_all]. unfold bind. rewrite send_run.
    destruct (on_write E t (dev o) OUT_ENDPOINT (c ++ CR)) as [e|].
    + right. exists 0%nat, e. split; [simpl; lia|reflexivity].
    + destruct (IH (t ++ sent_one o c)) as [H|[n [e [L H]]]]; rewrite H.
      * left. rewrite <- app_assoc. reflexivity.
      * right. exists (S n), e. split; [simpl; lia|].
        rewrite <- app_assoc. reflexivity.
Qed.

(** The two ways a call can end, whatever the device does. *)
Lemma run_cases (o : self) (c : call) (E : env) (t : trace) :
  run o c E t = (Ok tt, t ++ sent o (commands c) ++ settle c)
  \/ exists n e,
       (n < List.length (commands c))%nat
       /\ run o c E t
          = (Raise e, t ++ sent o (firstn n (commands c))
                        ++ [EvWrite (dev o) OUT_ENDPOINT
                              (nth n (commands c) [] ++ CR)]).
Proof.
  destruct (call_eq_reset c) as [->|N].
  - cbn [run commands settle]. rewrite reset_run.
    destruct (on_write E t (dev o) OUT_ENDPOINT (lit "*RST" ++ CR)) as [e|].
    + right. exists 0%nat, e. split; [simpl; lia|reflexivity].
    + left. reflexivity.
  - rewrite (run_send_all o c E t N).
    destruct (send_all_cases o (commands c) E t) as [H|H].
    + left. rewrite H. f_equal. f_equal.
      destruct c; try contradiction; cbn [settle]; rewrite app_nil_r;
        reflexivity.
    + right. exact H.
Qed.

(** X6.  One contract for all the methods that send and expect no
    response ([send], [reset], the four setters, [output_on],
    [output_off], [configure_waveform]), for arguments that can be
    converted to text (an [int] of at most 4300 digits; [str(n)] raises
    for a longer one).  When the device accepts the writes, the call
    returns [None] after sending its commands in order, each followed
    by a pause of 0.05 s, and [reset] alone adds its 0.5 s.  When the
    [n]-th write faults, the call raises that fault itself: the
    commands before it were sent and paused for, nothing follows the
    faulting write, not even the delay of [reset]. *)
Theorem call_outcome (o : self) (c : call) (E : env) (t : trace) :
  call_formats c = true ->
  (accepted E t o (commands c) ->
     run o c E t = (Ok tt, t ++ sent o (commands c) ++ settle c))
  /\ (forall n e,
        (n < List.length (commands c))%nat ->
        faults_at E t o (commands c) n e ->
        run o c E t
        = (Raise e, t ++ sent o (firstn n (commands c))
                      ++ [EvWrite (dev o) OUT_ENDPOINT
                            (nth n (commands c) [] ++ CR)])).
Proof.
  intros _. destruct (call_eq_reset c) as [->|N].
  - cbn [run commands settle]. rewrite reset_run. split.
    + intros A. specialize (A 0%nat ltac:(simpl; lia)).
      cbn [firstn sent flat_map nth] in A. rewrite app_nil_r in A.
      rewrite A. reflexivity.
    + intros n e L [_ F]. assert (n = 0%nat) as -> by (simpl in L; lia).
      cbn [firstn sent flat_map nth] in F. rewrite app_nil_r in F.
      rewrite F. reflexivity.
  - rewrite (run_send_all o c E t N). split.
    + intros A. rewrite (send_all_ok o E (commands c) t A).
      f_equal. f_equal.
      destruct c; try contradiction; cbn [settle]; rewrite app_nil_r;
        reflexivity.
    + intros n e L F. apply send_all_fault; assumption.
Qed.

Lemma call_outcome_witness :
  run Sim.gen (SetFrequency (PyValue.VInt 1000)) Sim.answering []
  = (Ok tt,
     [ EvWrite Sim.ag051 0x03 (lit ":FUNCtion:FREQuency 1000" ++ CR);
       EvSleep (decimal 5 2) ])
  /\ run Sim.gen Reset Sim.unplugged []
     = (Raise (USBError "No such device"),
        [ EvWrite Sim.ag051 0x03 (lit "*RST" ++ CR) ]).
Proof.
  split.
  - apply (proj1 (call_outcome Sim.gen (SetFrequency (PyValue.VInt 1000))
                    Sim.answering [] eq_refl)).
    intros k Hk. reflexivity.
  - apply (proj2 (call_outcome Sim.gen Reset Sim.unplugged [] eq_refl) 0%nat
             (USBError "No such device")).
    + simpl. lia.
    + split; [intros k Hk; lia|reflexivity].
Defined.

Lemma payloads_settle (c : call) : payloads (settle c) = [].
Proof. destruct c; reflexivity. Qed.

Lemma firstn_snoc_nth {A : Type} (l : list A) (n : nat) (d : A) :
  (n < List.length l)%nat -> firstn n l ++ [nth n l d] = firstn (S n) l.
Proof.
  revert n. induction l as [|x l IH]; intros n L; [simpl in L; lia|].
  destruct n as [|n]; [reflexivity|]. cbn [firstn nth app].
  rewrite IH by (simpl in L; lia). reflexivity.
Qed.

Lemma firstn_S_app {A : Type} (l l' : list A) (n : nat) (d : A) :
  (n < List.length l)%nat ->
  firstn (S n) (l ++ l') = firstn n l ++ [nth n l d].
Proof.
  intros L. rewrite firstn_app.
  replace (S n - List.length l)%nat with 0%nat by lia.
  rewrite firstn_O, app_nil_r. symmetry. apply firstn_snoc_nth, L.
Qed.

(** X7.  A script never reorders, repeats or skips: whatever the
    device does, the payloads a script of calls writes are a prefix of
    the commands of its calls, in order, each ended by one carriage
    return; and when the script returns, the whole trace is the
    commands of each call, paused for, with the delay of each
    [reset]. *)
Theorem script_sends_prefix_in_order
  (o : self) (cs : list call) (E : env) (t : trace) :
  exists new n,
    snd (run_script o cs E t) = t ++ new
    /\ payloads new
       = firstn n (map (fun c => c ++ CR) (flat_map commands cs))
    /\ (fst (run_script o cs E t) = Ok tt ->
        new = flat_map (fun c => sent o (commands c) ++ settle c) cs
        /\ payloads new = map (fun c => c ++ CR) (flat_map commands cs)).
Proof.
  revert t. induction cs as [|c cs IH]; intros t.
  - exists [], 0%nat. cbn. rewrite app_nil_r. repeat split; reflexivity.
  - cbn [run_script]. unfold bind.
    destruct (run_cases o c E t) as [H|[n [e [L H]]]]; rewrite H.
    + destruct (IH (t ++ sent o (commands c) ++ settle c))
        as [new [n [S [P F]]]].
      exists (sent o (commands c) ++ settle c ++ new),
             (List.length (map (fun c => c ++ CR) (commands c)) + n)%nat.
      split; [rewrite S, <- !app_assoc; reflexivity|].
      assert (Q : payloads (sent o (commands c) ++ settle c ++ new)
                  = map (fun c => c ++ CR) (commands c) ++ payloads new).
      { rewrite !payloads_app, payloads_sent, payloads_settle.
        reflexivity. }
      split.
      * rewrite Q, P. cbn [flat_map]. rewrite map_app, firstn_app_2.
        reflexivity.
      * intros R. destruct (F R) as [F1 F2]. split.
        -- cbn [flat_map]. rewrite F1, <- app_assoc. reflexivity.
        -- rewrite Q, F2. cbn [flat_map]. rewrite map_app. reflexivity.
    + exists (sent o (firstn n (commands c))
                ++ [EvWrite (dev o) OUT_ENDPOINT
                      (nth n (commands c) [] ++ CR)]), (S n).
      split; [reflexivity|]. split; [|discriminate].
      rewrite payloads_app, payloads_sent. cbn [payloads flat_map].
      rewrite map_app.
      rewrite (firstn_S_app _ _ n ([] ++ CR))
        by (rewrite length_map; exact L).
      pose proof (map_nth (fun c0 : str => c0 ++ CR) (commands c) [] n)
        as MN.
      cbv beta in MN.
      f_equal; [symmetry; apply firstn_map|]. f_equal. symmetry. exact MN.
Qed.

Lemma paced_sent (o : self) (cmds : list str) (t : trace) :
  paced t -> paced (sent o cmds ++ t).
Proof.
  intros P. induction cmds as [|c cmds IH]; [exact P|].
  cbn [sent flat_map sent_one app]. apply paced_write. exact IH.
Qed.

Lemma paced_settle (c : call) (t : trace) : paced t -> paced (settle c ++ t).
Proof. intros P. destruct c; try exact P. apply paced_sleep. exact P. Qed.

(** X8.  The pacing of a script: whatever the device does, in the
    effects of a script of calls every write is followed at once by the
    pause of 0.05 s, except a write that faulted, which is the last
    effect.  So the instrument never gets two commands without a pause
    between them. *)
Theorem script_is_paced (o : self) (cs : list call) (E : env) (t : trace) :
  exists new, snd (run_script o cs E t) = t ++ new /\ paced new.
Proof.
  revert t. induction cs as [|c cs IH]; intros t.
  - exists []. cbn. rewrite app_nil_r. split; [reflexivity|constructor].
  - cbn [run_script]. unfold bind.
    destruct (run_cases o c E t) as [H|[n [e [L H]]]]; rewrite H.
    + destruct (IH (t ++ sent o (commands c) ++ settle c)) as [new [S P]].
      exists (sent o (commands c) ++ settle c ++ new).
      split; [rewrite S, <- !app_assoc; reflexivity|].
      apply paced_sent, paced_settle, P.
    + eexists. split; [reflexivity|]. apply paced_sent, paced_last.
Qed.

Lemma on_channel_sent (o : self) (cmds : list str) :
  Forall (on_channel o) (sent o cmds).
Proof.
  induction cmds as [|c cmds IH]; [constructor|].
  cbn [sent flat_map sent_one app].
  repeat (constructor; [cbn; auto|]). exact IH.
Qed.

Lemma on_channel_settle (o : self) (c : call) :
  Forall (on_channel o) (settle c).
Proof. destruct c; repeat constructor. Qed.

Lemma keeps_channel_query (o : self) (cmd : str) :
  keeps_channel o (query o cmd).
Proof.
  intros E t. pose proof (query_run o cmd E t) as Q. cbv zeta in Q.
  rewrite Q.
  destruct (on_write E t (dev o) OUT_ENDPOINT (cmd ++ CR)) as [e|];
    [|destruct (on_read E _ (dev o) IN_ENDPOINT 4096 (timeout o)) as [d|e];
      [|destruct (is_USBTimeoutError e)]];
    (eexists; split; [reflexivity|]);
    repeat (constructor; [cbn; auto|]); constructor.
Qed.

(** X9.  After construction the driver stays on its channel: every
    effect of a [query], of [info] and of any script of calls is a
    write to the device found at construction on endpoint 0x03, a read
    of 4096 bytes from it on endpoint 0x81 with the timeout given at
    construction, a delay or a print.  The bus is not searched again
    and the device is not configured again, also after a fault or a
    timeout. *)
Theorem methods_keep_channel (o : self) :
  (forall cmd, keeps_channel o (query o cmd))
  /\ keeps_channel o (info o)
  /\ (forall cs, keeps_channel o (run_script o cs)).
Proof.
  split; [exact (keeps_channel_query o)|]. split.
  - intros E t. destruct (keeps_channel_query o (lit "*IDN?") E t)
      as [new [S F]].
    unfold info, bind, print_line.
    destruct (query o (lit "*IDN?") E t) as [[idn|e] t']; cbn [snd] in *.
    + exists (new ++ [EvPrint (idn ++ LF)]). rewrite S, <- app_assoc.
      split; [reflexivity|]. apply Forall_app. split; [exact F|].
      repeat constructor.
    + exists new. split; assumption.
  - intros cs E t. revert t. induction cs as [|c cs IH]; intros t.
    + exists []. cbn. rewrite app_nil_r. split; constructor.
    + cbn [run_script]. unfold bind.
      destruct (run_cases o c E t) as [H|[n [e [L H]]]]; rewrite H.
      * destruct (IH (t ++ sent o (commands c) ++ settle c))
          as [new [S P]].
        exists (sent o (commands c) ++ settle c ++ new).
        split; [rewrite S, <- !app_assoc; reflexivity|].
        apply Forall_app. split; [apply on_channel_sent|].
        apply Forall_app. split; [apply on_channel_settle|exact P].
      * eexists. split; [reflexivity|].
        apply Forall_app. split; [apply on_channel_sent|].
        repeat constructor.
Qed.

(* ================================================================== *)
(** * The script under [if __name__ == "__main__"] *)
(* ================================================================== *)

(** X10.  The script of the module connects and resets, nothing else:
    whatever the bus holds and the device does, the payloads it writes
    are a prefix of [*IDN?\r], [*RST\r]; and when it ends without an
    exception it wrote both, read once, printed the one line
    ["Connected: ..."] and slept 0.05 s and then 0.5 s. *)
Theorem main_connects_and_resets (E : env) (t : trace) :
  exists new n,
    snd (main E t) = t ++ new
    /\ payloads new = firstn n [lit "*IDN?" ++ CR; lit "*RST" ++ CR]
    /\ (fst (main E t) = Ok tt ->
        n = 2%nat
        /\ read_sizes new = [4096]
        /\ delays new = [decimal 5 2; decimal 5 1]
        /\ exists idn, printed new = [lit "Connected: " ++ idn ++ LF]).
Proof.
  unfold main, bind.
  rewrite (init_run default_vendor_id default_product_id default_timeout E t).
  destruct (find _ (bus E)) as [d|].
  2:{ exists [EvFind default_vendor_id default_product_id], 0%nat.
      split; [reflexivity|]. split; [reflexivity|discriminate]. }
  cbv zeta.
  destruct (on_set_configuration E _ d) as [e|].
  { exists [EvFind default_vendor_id default_product_id;
            EvSetConfiguration d], 0%nat.
    split; [reflexivity|]. split; [reflexivity|discriminate]. }
  match goal with |- context [query ?o ?c E ?t0] =>
    pose proof (query_run o c E t0) as Q; cbv zeta in Q;
    cbn [dev timeout] in Q; rewrite Q; clear Q end.
  destruct (on_write E _ d OUT_ENDPOINT (lit "*IDN?" ++ CR)) as [e|].
  { eexists; exists 1%nat. rewrite <- app_assoc.
    split; [reflexivity|]. split; [reflexivity|discriminate]. }
  assert (R : forall idn,
    let t4 := (t ++ [EvFind default_vendor_id default_product_id;
                     EvSetConfiguration d])
              ++ [EvWrite d OUT_ENDPOINT (lit "*IDN?" ++ CR);
                  EvRead d IN_ENDPOINT 4096 default_timeout] in
    let o := {| vendor_id := default_vendor_id;
                product_id := default_product_id;
                timeout := default_timeout; dev := d |} in
    let r := reset o E (t4 ++ [EvPrint (lit "Connected: " ++ idn ++ LF)]) in
    exists new n,
      snd r = t ++ new
      /\ payloads new = firstn n [lit "*IDN?" ++ CR; lit "*RST" ++ CR]
      /\ (fst r = Ok tt ->
          n = 2%nat
          /\ read_sizes new = [4096]
          /\ delays new = [decimal 5 2; decimal 5 1]
          /\ exists idn, printed new = [lit "Connected: " ++ idn ++ LF])).
  { intros idn t4 o r. subst r t4 o. rewrite reset_run. cbn [dev].
    destruct (on_write E _ d OUT_ENDPOINT (lit "*RST" ++ CR)) as [e|];
      eexists; exists 2%nat; rewrite <- !app_assoc;
      (split; [reflexivity|]); (split; [reflexivity|]);
      [discriminate|].
    intros _. split; [reflexivity|]. split; [reflexivity|].
    split; [reflexivity|]. exists idn. reflexivity. }
  destruct (on_read E _ d IN_ENDPOINT 4096 default_timeout) as [data|e];
    [exact (R _)|].
  destruct (is_USBTimeoutError e); [exact (R _)|].
  eexists; exists 1%nat. rewrite <- app_assoc.
  split; [reflexivity|]. split; [reflexivity|discriminate].
Qed.

(* ================================================================== *)
(** * The text that [query] returns *)
(* ================================================================== *)

Lemma encode_codepoint_scalar (c : Z) (bs : bytes) :
  encode_codepoint c = Some bs -> scalar c.
Proof.
  unfold encode_codepoint, scalar.
  destruct (Z.ltb_spec c 0); [discriminate|].
  destruct (Z.ltb_spec c 0x80); [intros _; lia|].
  destruct (Z.ltb_spec c 0x800); [intros _; lia|].
  destruct (Z.leb_spec 0xD800 c); destruct (Z.leb_spec c 0xDFFF);
    cbn [andb]; try discriminate;
    (destruct (Z.ltb_spec c 0x10000); [intros _; lia|]);
    (destruct (Z.leb_spec c 0x10FFFF); [intros _; lia|discriminate]).
Qed.

Lemma encode_scalars (s : str) (bs : bytes) :
  encode s = Some bs -> Forall scalar s.
Proof.
  revert bs. induction s as [|c s IH]; intros bs H; [constructor|].
  cbn [encode] in H.
  destruct (encode_codepoint c) as [b|] eqn:C; [|discriminate].
  destruct (encode s) as [bs'|]; [|discriminate].
  constructor; [exact (encode_codepoint_scalar c b C)|exact (IH bs' eq_refl)].
Qed.

Lemma encode_middle (l m r : str) (bs : bytes) :
  encode (l ++ m ++ r) = Some bs -> exists ms, encode m = Some ms.
Proof.
  rewrite !encode_app.
  destruct (encode l); [|discriminate].
  destruct (encode m) as [ms|]; [|discriminate].
  intros _. exists ms. reflexivity.
Qed.

(** X11.  What [query] returns is clean text: it neither starts nor
    ends with whitespace (stripping it again changes nothing), every
    character of it is a Unicode scalar value (no surrogate, nothing
    out of range, whatever bytes the device sent), and it can be
    encoded to UTF-8 again. *)
Theorem query_result_is_clean_text
  (o : self) (cmd : str) (E : env) (t : trace) (s : str) :
  fst (query o cmd E t) = Ok s ->
  strip s = s
  /\ Forall scalar s
  /\ exists bs, wire_bytes s = Some bs.
Proof.
  intros H.
  assert (S : strip s = s).
  { destruct (query o cmd E t) as [r t'] eqn:Q. cbn [fst] in H. subst r.
    exact (query_result_stripped o cmd E t t' s Q). }
  split; [exact S|].
  assert (B : exists bs, encode s = Some bs).
  { pose proof (query_run o cmd E t) as Q. cbv zeta in Q. rewrite Q in H.
    destruct (on_write E t (dev o) OUT_ENDPOINT (cmd ++ CR));
      [discriminate|].
    destruct (on_read E _ (dev o) IN_ENDPOINT 4096 (timeout o)) as [data|e].
    - cbn [fst] in H. inversion H as [Hs].
      destruct (decode_kept (firstn 4096 data)) as [kept [K _]].
      destruct (strip_spec (decode (firstn 4096 data)))
        as [[l [r [D _]]] _].
      rewrite D in K. exact (encode_middle _ _ _ _ K).
    - destruct (is_USBTimeoutError e); [|discriminate].
      cbn [fst] in H. inversion H. exists []. reflexivity. }
  destruct B as [bs B]. split; [exact (encode_scalars s bs B)|].
  exists bs. exact B.
Qed.

Lemma query_result_is_clean_text_witness :
  strip (lit "OWON,AG051,12345,1.0") = lit "OWON,AG051,12345,1.0"
  /\ Forall scalar (lit "OWON,AG051,12345,1.0")
  /\ exists bs, wire_bytes (lit "OWON,AG051,12345,1.0") = Some bs.
Proof.
  apply (query_result_is_clean_text Sim.gen (lit "*IDN?") Sim.answering []).
  vm_compute. reflexivity.
Defined.

Lemma decode_ignore_ascii (l : list Z) :
  Forall (fun v => 0 <= v < 0x80) l -> decode_ignore l = l.
Proof.
  induction 1 as [|v l Hv _ IH]; [reflexivity|].
  cbn [decode_ignore]. decide_tests. rewrite IH. reflexivity.
Qed.

(** X12.  An ASCII response comes back character for character: when
    every byte the device offers is below 0x80, [query] returns the
    first 4096 of them, one character for each byte, with the
    whitespace at both ends removed; cutting at 4096 bytes loses the
    rest and nothing else. *)
Theorem query_ascii_response
  (o : self) (cmd : str) (E : env) (t : trace) (data : bytes) :
  on_write E t (dev o) OUT_ENDPOINT (cmd ++ CR) = None ->
  on_read E (t ++ [EvWrite (dev o) OUT_ENDPOINT (cmd ++ CR)]) (dev o)
    IN_ENDPOINT 4096 (timeout o) = Offer data ->
  forallb (fun b => byte_val b <? 0x80) data = true ->
  fst (query o cmd E t) = Ok (strip (map byte_val (firstn 4096 data))).
Proof.
  intros W R A. pose proof (query_run o cmd E t) as Q. cbv zeta in Q.
  rewrite W, R in Q. rewrite Q. cbn [fst]. f_equal. f_equal.
  unfold decode. apply decode_ignore_ascii.
  apply Forall_forall. intros v Hv. apply in_map_iff in Hv.
  destruct Hv as [b [<- Hb]].
  pose proof (forallb_firstn _ 4096 data A) as A'.
  rewrite forallb_forall in A'. specialize (A' b Hb).
  apply Z.ltb_lt in A'. pose proof (byte_val_range b) as B.
  unfold is_byte in B. lia.
Qed.

Lemma query_ascii_response_witness :
  fst (query Sim.gen (lit "*IDN?") (Sim.flooding 5000) [])
  = Ok (strip (map byte_val (firstn 4096 (repeat x41 5000)))).
Proof.
  apply (query_ascii_response Sim.gen (lit "*IDN?") (Sim.flooding 5000) []
           (repeat x41 5000)).
  - reflexivity.
  - reflexivity.
  - vm_compute. reflexivity.
Defined.

(** X13.  A response that is the UTF-8 encoding of a text [s] and fits
    in one read comes back as [s] stripped, whatever characters [s] is
    made of. *)
Theorem query_valid_utf8_response
  (o : self) (cmd : str) (E : env) (t : trace) (s : str) (bs : bytes) :
  on_write E t (dev o) OUT_ENDPOINT (cmd ++ CR) = None ->
  on_read E (t ++ [EvWrite (dev o) OUT_ENDPOINT (cmd ++ CR)]) (dev o)
    IN_ENDPOINT 4096 (timeout o) = Offer bs ->
  encode s = Some bs ->
  (List.length bs <= 4096)%nat ->
  fst (query o cmd E t) = Ok (strip s).
Proof.
  intros W R C L. pose proof (query_run o cmd E t) as Q. cbv zeta in Q.
  rewrite W, R in Q. rewrite Q. cbn [fst]. f_equal. f_equal.
  rewrite firstn_all2 by exact L. unfold decode.
  pose proof (decode_ignore_encoded s bs [] C) as D.
  rewrite !app_nil_r in D. exact D.
Qed.

Lemma query_valid_utf8_response_witness :
  fst (query Sim.gen (lit ":FUNCtion?") Sim2.echoing [])
  = Ok (strip (lit ":FUNCtion?" ++ CR)).
Proof.
  apply (query_valid_utf8_response Sim.gen (lit ":FUNCtion?") Sim2.echoing []
           (lit ":FUNCtion?" ++ CR)
           [x3a; x46; x55; x4e; x43; x74; x69; x6f; x6e; x3f; x0d]).
  - reflexivity.
  - vm_compute. reflexivity.
  - vm_compute. reflexivity.
  - simpl. lia.
Defined.

Section Truncated.
Variable c : Z.

Lemma truncated2 :
  0x80 <= c < 0x800 ->
  decode_ignore [byte_val (byte_of_Z (Z.lor 0xC0 (Z.shiftr c 6)))] = [].
Proof.
  intros R. rewrite lead2 by lia. rewrite byte_val_of by dlia.
  cbn [decode_ignore]. decide_tests. reflexivity.
Qed.

Lemma truncated3 (n : nat) :
  0x800 <= c < 0x10000 -> ~ (0xD800 <= c <= 0xDFFF) ->
  (0 < n < 3)%nat ->
  decode_ignore
    (firstn n
       (map byte_val
          [byte_of_Z (Z.lor 0xE0 (Z.shiftr c 12));
           byte_of_Z (Z.lor 0x80 (Z.land (Z.shiftr c 6) 0x3F));
           byte_of_Z (Z.lor 0x80 (Z.land c 0x3F))])) = [].
Proof.
  intros R S N. rewrite lead3, shr6, !cont by lia. cbn [map].
  rewrite !byte_val_of by dlia.
  destruct n as [|[|[|n]]]; try lia; cbn [firstn decode_ignore];
    unfold is_continuation; walk; reflexivity || dlia.
Qed.

Lemma truncated4 (n : nat) :
  0x10000 <= c <= 0x10FFFF ->
  (0 < n < 4)%nat ->
  decode_ignore
    (firstn n
       (map byte_val
          [byte_of_Z (Z.lor 0xF0 (Z.shiftr c 18));
           byte_of_Z (Z.lor 0x80 (Z.land (Z.shiftr c 12) 0x3F));
           byte_of_Z (Z.lor 0x80 (Z.land (Z.shiftr c 6) 0x3F));
           byte_of_Z (Z.lor 0x80 (Z.land c 0x3F))])) = [].
Proof.
  intros R N. rewrite lead4, shr6, shr12, !cont by lia. cbn [map].
  rewrite !byte_val_of by dlia.
  destruct n as [|[|[|[|n]]]]; try lia; cbn [firstn decode_ignore];
    unfold is_continuation; walk; reflexivity || dlia.
Qed.

(** A proper, non-empty prefix of the encoding of one character, at
    the end of the input, decodes to nothing. *)
Lemma decode_truncated (cb : bytes) (n : nat) :
  encode_codepoint c = Some cb ->
  (0 < n < List.length cb)%nat ->
  decode_ignore (firstn n (map byte_val cb)) = [].
Proof.
  unfold encode_codepoint.
  destruct (Z.ltb_spec c 0); [discriminate|].
  destruct (Z.ltb_spec c 0x80).
  { intros Hbs. apply some_eq in Hbs. subst cb. simpl. lia. }
  destruct (Z.ltb_spec c 0x800).
  { intros Hbs N. apply some_eq in Hbs. subst cb.
    assert (n = 1%nat) as -> by (simpl in N; lia).
    cbn [map firstn]. apply truncated2. lia. }
  destruct (Z.leb_spec 0xD800 c); destruct (Z.leb_spec c 0xDFFF);
    cbn [andb]; try discriminate; try lia.
  all: destruct (Z.ltb_spec c 0x10000).
  all: try (intros Hbs N; apply some_eq in Hbs; subst cb;
            apply truncated3; [lia | lia | exact N]).
  all: destruct (Z.leb_spec c 0x10FFFF); try discriminate; try lia.
  intros Hbs N. apply some_eq in Hbs. subst cb.
  apply truncated4; [lia | exact N].
Qed.

End Truncated.

(** X14.  A character cut by the limit of 4096 bytes vanishes without
    an error: when the response is the encoding of a text [s], then
    the encoding of one more character that starts before byte 4096 and
    ends after it, then anything, [query] returns [s] stripped, the
    same as if the response had ended before that character. *)
Theorem query_drops_character_cut_at_4096
  (o : self) (cmd : str) (E : env) (t : trace)
  (s : str) (bs : bytes) (c : codepoint) (cb rest : bytes) :
  on_write E t (dev o) OUT_ENDPOINT (cmd ++ CR) = None ->
  on_read E (t ++ [EvWrite (dev o) OUT_ENDPOINT (cmd ++ CR)]) (dev o)
    IN_ENDPOINT 4096 (timeout o) = Offer (bs ++ cb ++ rest) ->
  encode s = Some bs ->
  encode_codepoint c = Some cb ->
  (List.length bs < 4096 < List.length bs + List.length cb)%nat ->
  fst (query o cmd E t) = Ok (strip s).
Proof.
  intros W R C Cc L. pose proof (query_run o cmd E t) as Q. cbv zeta in Q.
  rewrite W, R in Q. rewrite Q. cbn [fst]. f_equal. f_equal.
  rewrite firstn_app, firstn_all2 by lia.
  rewrite firstn_app.
  replace (4096 - List.length bs - List.length cb)%nat with 0%nat by lia.
  rewrite firstn_O, app_nil_r. unfold decode. rewrite map_app.
  rewrite (decode_ignore_encoded s bs _ C). rewrite <- firstn_map.
  rewrite (decode_truncated c cb _ Cc) by lia. apply app_nil_r.
Qed.

Lemma query_drops_character_cut_at_4096_witness :
  fst (query Sim.gen (lit "*IDN?") Sim2.accented [])
  = Ok (strip (repeat 65 4095)).
Proof.
  apply (query_drops_character_cut_at_4096 Sim.gen (lit "*IDN?")
           Sim2.accented [] (repeat 65 4095) (repeat x41 4095)
           0xE9 [xc3; xa9] []).
  - reflexivity.
  - reflexivity.
  - vm_compute. reflexivity.
  - vm_compute. reflexivity.
  - rewrite repeat_length. simpl List.length. lia.
Defined.

(* ================================================================== *)
(** * The commands on the wire *)
(* ================================================================== *)

Lemma forallb_weaken {A : Type} (p q : A -> bool) (l : list A) :
  (forall x, p x = true -> q x = true) ->
  forallb p l = true -> forallb q l = true.
Proof.
  intros I. rewrite !forallb_forall. intros H x Hx. apply I, H, Hx.
Qed.

Lemma digits_ascii (s : str) :
  forallb is_digit s = true -> forallb is_ascii s = true.
Proof.
  apply forallb_weaken. intros x. unfold is_digit, is_ascii.
  intros H. apply andb_prop in H. destruct H as [L U].
  apply Z.leb_le in L. apply Z.leb_le in U.
  apply andb_true_intro. split; [apply Z.leb_le|apply Z.ltb_lt]; lia.
Qed.

Lemma int_str_ascii (n : Z) : forallb is_ascii (int_str n) = true.
Proof.
  destruct n as [|p|p]; cbn [int_str forallb]; [reflexivity| |];
    rewrite ?(digits_ascii _ (uint_str_digits _)); reflexivity.
Qed.

Lemma forallb_removelast {A : Type} (p : A -> bool) (l : list A) :
  forallb p l = true -> forallb p (removelast l) = true.
Proof.
  induction l as [|x l IH]; [reflexivity|]. intros H. cbn [forallb] in H.
  apply andb_prop in H. destruct H as [Hx Hl].
  destruct l as [|y l]; [reflexivity|].
  change (removelast (x :: y :: l)) with (x :: removelast (y :: l)).
  cbn [forallb]. rewrite Hx. exact (IH Hl).
Qed.

Lemma zeros_ascii (n : Z) : forallb is_ascii (zeros n) = true.
Proof. apply digits_ascii, zeros_digits. Qed.

Lemma exp_text_ascii (exp : Z) : forallb is_ascii (exp_text exp) = true.
Proof.
  unfold exp_text. rewrite !forallb_app, int_str_ascii.
  destruct (exp <? 0); destruct (Z.abs exp <? 10); reflexivity.
Qed.

(** Assemble a text of ASCII parts. *)
Ltac ascii_parts :=
  repeat first
    [ rewrite forallb_app
    | apply andb_true_intro; split
    | apply zeros_ascii
    | apply exp_text_ascii
    | apply forallb_removelast
    | apply forallb_firstn
    | apply forallb_skipn
    | assumption
    | reflexivity ].

Lemma format_float_short_ascii (sign : bool) (digits : list Z) (decpt : Z) :
  Forall digit digits ->
  forallb is_ascii (format_float_short sign digits decpt) = true.
Proof.
  intros F. unfold format_float_short. cbv zeta.
  set (ds := map (fun d => 48 + d) digits).
  assert (Dd : forallb is_ascii ds = true)
    by (apply digits_ascii, digit_chars; exact F).
  generalize (Z.of_nat (List.length digits)). intros n.
  destruct sign; destruct ((decpt <=? -4) || (16 <? decpt));
    cbn [negb];
    repeat match goal with
           | |- context [if ?b then _ else _] => destruct b
           end;
    ascii_parts.
Qed.

Lemma repr_ascii (x : float) : forallb is_ascii (repr x) = true.
Proof.
  destruct x as [s|s| |s m e]; cbn [repr].
  - apply format_float_short_ascii. repeat constructor; unfold digit; lia.
  - destruct s; reflexivity.
  - reflexivity.
  - destruct (dtoa_digits_decimal m e) as [_ D].
    destruct (dtoa m e) as [digits decpt]. cbn [fst] in D.
    apply format_float_short_ascii, D.
Qed.

Lemma format_ascii (v : PyValue.value) :
  ascii_value v = true -> forallb is_ascii (PyValue.format v) = true.
Proof.
  destruct v as [s|n|x]; cbn [ascii_value PyValue.format]; intros H.
  - exact H.
  - apply int_str_ascii.
  - apply repr_ascii.
Qed.

Lemma encode_ascii (s : str) :
  forallb is_ascii s = true -> encode s = Some (ascii_bytes s).
Proof.
  induction s as [|c s IH]; [reflexivity|]. intros H. cbn [forallb] in H.
  apply andb_prop in H. destruct H as [Hc Hs].
  unfold is_ascii in Hc. apply andb_prop in Hc. destruct Hc as [L U].
  cbn [encode]. rewrite (IH Hs). unfold encode_codepoint.
  apply Z.leb_le in L. rewrite U.
  replace (c <? 0) with false by (symmetry; apply Z.ltb_ge; exact L).
  reflexivity.
Qed.

Lemma commands_ascii (c : call) :
  ascii_call c = true ->
  Forall (fun cmd => forallb is_ascii (cmd ++ CR) = true) (commands c).
Proof.
  destruct c; cbn [ascii_call commands waveform_commands]; intros H;
    repeat match goal with
           | H : _ && _ = true |- _ => apply andb_prop in H; destruct H
           end;
    repeat constructor; ascii_parts; apply format_ascii; assumption.
Qed.

Lemma Forall_firstn {A : Type} (P : A -> Prop) (n : nat) (l : list A) :
  Forall P l -> Forall P (firstn n l).
Proof.
  intros H. revert n. induction H as [|x l Hx _ IH]; intros [|n];
    cbn [firstn]; constructor; auto.
Qed.

Lemma Forall_nth_lt {A : Type} (P : A -> Prop) (n : nat) (l : list A)
  (d : A) :
  Forall P l -> (n < List.length l)%nat -> P (nth n l d).
Proof.
  intros H. revert n. induction H as [|x l Hx _ IH]; intros [|n] L;
    cbn [nth]; simpl in L; try lia; auto. apply IH. lia.
Qed.

(** X15.  Numbers never break the encoding of a command: in a script
    of calls whose [str] arguments are ASCII (the numbers may be any
    [int] or [float], [inf] and [nan] included), every payload handed
    to the device is ASCII and goes on the wire as one byte for each
    character, whatever the device does. *)
Theorem script_payloads_are_ascii
  (o : self) (cs : list call) (E : env) (t : trace) :
  forallb ascii_call cs = true ->
  exists new,
    snd (run_script o cs E t) = t ++ new
    /\ Forall (fun p => forallb is_ascii p = true
                        /\ wire_bytes p = Some (ascii_bytes p))
         (payloads new).
Proof.
  assert (W : forall l : list str,
    Forall (fun cmd => forallb is_ascii (cmd ++ CR) = true) l ->
    Forall (fun p => forallb is_ascii p = true
                     /\ wire_bytes p = Some (ascii_bytes p))
      (map (fun c => c ++ CR) l)).
  { intros l H. induction H as [|x l Hx _ IH]; cbn [map]; constructor;
      [|exact IH]. split; [exact Hx|apply encode_ascii, Hx]. }
  revert t. induction cs as [|c cs IH]; intros t A.
  - exists []. cbn. rewrite app_nil_r. split; constructor.
  - cbn [forallb] in A. apply andb_prop in A. destruct A as [Ac Acs].
    pose proof (commands_ascii c Ac) as C.
    cbn [run_script]. unfold bind.
    destruct (run_cases o c E t) as [H|[n [e [L H]]]]; rewrite H.
    + destruct (IH (t ++ sent o (commands c) ++ settle c) Acs)
        as [new [S P]].
      exists (sent o (commands c) ++ settle c ++ new).
      split; [rewrite S, <- !app_assoc; reflexivity|].
      rewrite !payloads_app, payloads_sent, payloads_settle.
      apply Forall_app. split; [exact (W _ C)|exact P].
    + eexists. split; [reflexivity|].
      rewrite payloads_app, payloads_sent. cbn [payloads].
      apply Forall_app. split; [exact (W _ (Forall_firstn _ n _ C))|].
      constructor; [|constructor].
      pose proof (Forall_nth_lt _ n _ [] C L) as N. cbv beta in N.
      split; [exact N|apply encode_ascii, N].
Qed.

Lemma script_payloads_are_ascii_witness :
  exists new,
    snd (run_script Sim.gen
           [ ConfigureWaveform default_shape default_freq default_ampl
               default_offset;
             OutputOn ] Sim.answering []) = [] ++ new
    /\ Forall (fun p => forallb is_ascii p = true
                        /\ wire_bytes p = Some (ascii_bytes p))
         (payloads new).
Proof.
  apply (script_payloads_are_ascii Sim.gen
           [ ConfigureWaveform default_shape default_freq default_ampl
               default_offset;
             OutputOn ] Sim.answering []).
  vm_compute. reflexivity.
Defined.

Lemma uint_str_inj (u v : Decimal.uint) : uint_str u = uint_str v -> u = v.
Proof.
  revert v. induction u as [|u IH|u IH|u IH|u IH|u IH|u IH|u IH|u IH|u IH|u IH];
    intros [|v|v|v|v|v|v|v|v|v|v] H; cbn [uint_str] in H;
    try reflexivity; try discriminate H;
    f_equal; apply IH; apply (f_equal (@tl Z)) in H; exact H.
Qed.

Lemma to_uint_inj (p q : positive) : Pos.to_uint p = Pos.to_uint q -> p = q.
Proof.
  intros H. apply (f_equal Pos.of_uint) in H.
  rewrite !DecimalPos.Unsigned.of_to in H. congruence.
Qed.

Lemma uint_str_head (u : Decimal.uint) (c : Z) (s : str) :
  uint_str u = c :: s -> is_digit c = true.
Proof.
  intros H. pose proof (uint_str_digits u) as D. rewrite H in D.
  cbn [forallb] in D. apply andb_prop in D. exact (proj1 D).
Qed.

(** [str] of an [int] tells the integers apart. *)
Lemma int_str_inj (n m : Z) : int_str n = int_str m -> n = m.
Proof.
  assert (Z0P : forall p, [48] = uint_str (Pos.to_uint p) -> False).
  { intros p H. change [48] with (uint_str (Decimal.D0 Decimal.Nil)) in H.
    apply uint_str_inj in H. apply (f_equal Pos.of_uint) in H.
    rewrite DecimalPos.Unsigned.of_to in H. discriminate H. }
  assert (NP : forall p q,
    uint_str (Pos.to_uint p) = 45 :: uint_str (Pos.to_uint q) -> False).
  { intros p q H. apply uint_str_head in H. discriminate H. }
  destruct n as [|p|p], m as [|q|q]; cbn [int_str]; intros H;
    try reflexivity.
  - destruct (Z0P q H).
  - discriminate H.
  - destruct (Z0P p (eq_sym H)).
  - f_equal. apply to_uint_inj, uint_str_inj, H.
  - destruct (NP p q H).
  - discriminate H.
  - destruct (NP q p (eq_sym H)).
  - f_equal. apply to_uint_inj, uint_str_inj.
    apply (f_equal (@tl Z)) in H. exact H.
Qed.

Lemma send_payloads (o : self) (cmd : str) (E : env) (t : trace) :
  payloads (snd (send o cmd E t)) = payloads t ++ [cmd ++ CR].
Proof.
  rewrite send_run.
  destruct (on_write E t (dev o) OUT_ENDPOINT (cmd ++ CR));
    cbn [snd]; rewrite payloads_app; reflexivity.
Qed.

Lemma numbered_command_inj (head : str) (n m : Z) :
  head ++ int_str n = head ++ int_str m -> n = m.
Proof. intros H. apply app_inv_head in H. apply int_str_inj, H. Qed.

(** X16.  Integer settings are told apart on the wire: two different
    [int] arguments that can be converted to text (at most 4300 digits
    each; [str(n)] raises for a longer one, and nothing is written)
    make [set_frequency], [set_amplitude] and [set_offset] write
    different payloads, from the same state and whatever the device
    does. *)
Theorem integer_settings_are_distinct
  (o : self) (E : env) (t : trace) (n m : Z) :
  PyValue.formats (PyValue.VInt n) = true ->
  PyValue.formats (PyValue.VInt m) = true ->
  n <> m ->
  payloads (snd (set_frequency o (PyValue.VInt n) E t))
    <> payloads (snd (set_frequency o (PyValue.VInt m) E t))
  /\ payloads (snd (set_amplitude o (PyValue.VInt n) E t))
       <> payloads (snd (set_amplitude o (PyValue.VInt m) E t))
  /\ payloads (snd (set_offset o (PyValue.VInt n) E t))
       <> payloads (snd (set_offset o (PyValue.VInt m) E t)).
Proof.
  intros _ _ N.
  assert (D : forall head : str,
    payloads (snd (send o (head ++ int_str n) E t))
    <> payloads (snd (send o (head ++ int_str m) E t))).
  { intros head H. rewrite !send_payloads in H. apply app_inv_head in H.
    apply (f_equal (fun l => nth 0 l [])) in H. cbn [nth] in H.
    apply app_inv_tail in H. exact (N (numbered_command_inj head n m H)). }
  unfold set_frequency, set_amplitude, set_offset. cbn [PyValue.format].
  split; [apply D|]. split; apply D.
Qed.

Lemma integer_settings_are_distinct_witness :
  payloads (snd (set_frequency Sim.gen (PyValue.VInt 1000) Sim.answering []))
  <> payloads (snd (set_frequency Sim.gen (PyValue.VInt 10000)
                      Sim.answering [])).
Proof.
  apply (integer_settings_are_distinct Sim.gen Sim.answering [] 1000 10000).
  - reflexivity.
  - reflexivity.
  - lia.
Defined.

(* ================================================================== *)
(** * The sign of a [float] argument *)
(* ================================================================== *)

Lemma last_cons_nonempty {A : Type} (x d : A) (l : list A) :
  l <> [] -> last (x :: l) d = last l d.
Proof. destruct l; [congruence|reflexivity]. Qed.

Lemma removelast_cons_nonempty {A : Type} (x : A) (l : list A) :
  l <> [] -> removelast (x :: l) = x :: removelast l.
Proof. destruct l; [congruence|reflexivity]. Qed.

(** The minus sign goes in front and changes nothing after it. *)
Lemma format_float_short_sign (digits : list Z) (decpt : Z) :
  digits <> [] ->
  format_float_short true digits decpt
  = 45 :: format_float_short false digits decpt.
Proof.
  intros N. unfold format_float_short. cbv zeta.
  change (lit "-") with [45]. cbn [app].
  match goal with |- context [last (45 :: ?B) 0] => set (b := B) end.
  assert (Nb : b <> []).
  { subst b. intros H.
    apply app_eq_nil in H. destruct H as [H _].
    apply app_eq_nil in H. destruct H as [_ H].
    destruct ((0 <? _) && _) in H.
    - apply app_eq_nil in H. destruct H as [_ H]. discriminate H.
    - apply map_eq_nil in H. exact (N H). }
  rewrite (last_cons_nonempty _ _ _ Nb), (removelast_cons_nonempty _ _ Nb).
  destruct (last b 0 =? 46); destruct ((decpt <=? -4) || (16 <? decpt));
    reflexivity.
Qed.

Lemma repr_sign (x : float) :
  x <> S754_nan -> repr (SFopp (SFabs x)) = 45 :: repr (SFabs x).
Proof.
  intros N. destruct x as [s|s| |s m e]; cbn [SFabs SFopp negb repr].
  - apply format_float_short_sign. discriminate.
  - reflexivity.
  - congruence.
  - destruct (dtoa_digits_decimal m e) as [D _].
    destruct (dtoa m e) as [digits decpt]. cbn [fst] in D.
    apply format_float_short_sign, D.
Qed.

(** X17.  A negative setting is the setting of the magnitude with a
    minus sign in front: for every [float] [x] that is a number, the
    payload written for [-|x|] by [set_offset], [set_amplitude] and
    [set_frequency] is the one written for [|x|] with [-] before the
    digits (so for a negative zero too, and for [-inf]). *)
Theorem negative_float_setting (o : self) (E : env) (t : trace) (x : float) :
  x <> S754_nan ->
  payloads (snd (set_offset o (PyValue.VFloat (SFopp (SFabs x))) E t))
  = payloads t ++ [lit ":FUNCtion:OFFSet -" ++ repr (SFabs x) ++ CR]
  /\ payloads (snd (set_amplitude o (PyValue.VFloat (SFopp (SFabs x))) E t))
     = payloads t ++ [lit ":FUNCtion:AMPLitude -" ++ repr (SFabs x) ++ CR]
  /\ payloads (snd (set_frequency o (PyValue.VFloat (SFopp (SFabs x))) E t))
     = payloads t ++ [lit ":FUNCtion:FREQuency -" ++ repr (SFabs x) ++ CR].
Proof.
  intros N. unfold set_offset, set_amplitude, set_frequency.
  cbn [PyValue.format]. rewrite !send_payloads, (repr_sign x N).
  repeat split; rewrite <- !app_assoc; reflexivity.
Qed.

Lemma negative_float_setting_witness :
  payloads (snd (set_offset Sim.gen
                   (PyValue.VFloat (SFopp (SFabs (decimal 15 1))))
                   Sim.answering []))
  = [] ++ [lit ":FUNCtion:OFFSet -"
             ++ repr (SFabs (decimal 15 1)) ++ CR].
Proof.
  apply (negative_float_setting Sim.gen Sim.answering [] (decimal 15 1)).
  vm_compute. discriminate.
Defined.
